(** * Commit-message formatter and validator (tools/format_commit.py, tools/lint_commit.py)

    A shallow embedding of the two tools of the repository and the properties
    of their interplay.  Python strings are sequences of Unicode code points;
    the exceptions raised by the formatter and the diagnostics of the
    validator are values of inductive types, one constructor per raise or
    [fail] site of the source. *)

From Stdlib Require Import String Ascii.
From Stdlib Require Import List NArith Bool Arith Lia.
Import ListNotations.

Set Implicit Arguments.

(** ** Lists as the tools use them *)

Module PyList.

Section Ops.
Variable A : Type.
Variable eqbA : A -> A -> bool.

(** [while l and p(l[0]): l.pop(0)] *)
Fixpoint drop_while (p : A -> bool) (l : list A) : list A :=
  match l with
  | [] => []
  | x :: r => if p x then drop_while p r else l
  end.

(** [while l and p(l[-1]): l.pop()] *)
Definition drop_while_end (p : A -> bool) (l : list A) : list A :=
  rev (drop_while p (rev l)).

(** Truth value of a sequence in a condition: non-empty. *)
Definition truthy (l : list A) : bool :=
  match l with [] => false | _ :: _ => true end.

(** [x in l] *)
Definition mem (x : A) (l : list A) : bool := existsb (eqbA x) l.

(** Position of the first [x] in [l], counted from [pos]. *)
Fixpoint index_at (x : A) (l : list A) (pos : nat) : option nat :=
  match l with
  | [] => None
  | y :: r => if eqbA y x then Some pos else index_at x r (S pos)
  end.

(** [l.index(x, start)], [None] when it raises [ValueError]. *)
Definition index_from (x : A) (l : list A) (start : nat) : option nat :=
  index_at x (skipn start l) start.

(** [l[i:j]] *)
Definition slice (l : list A) (i j : nat) : list A :=
  firstn (j - i) (skipn i l).

(** [a == b] on lists *)
Fixpoint list_eqb (a b : list A) : bool :=
  match a, b with
  | [], [] => true
  | x :: a', y :: b' => eqbA x y && list_eqb a' b'
  | _, _ => false
  end.

(** [a] is an initial segment of [b]. *)
Fixpoint is_prefix (a b : list A) : bool :=
  match a, b with
  | [], _ => true
  | x :: a', y :: b' => eqbA x y && is_prefix a' b'
  | _ :: _, [] => false
  end.
End Ops.

End PyList.

(** ** Python [str] *)

Module PyStr.
Import PyList.

Local Open Scope N_scope.

(** A character is its code point, a string the list of its characters. *)
Abbreviation char := N.
Abbreviation str := (list N).

(** A literal of the source, written as a Rocq string. *)
Definition lit (s : string) : str := map N_of_ascii (list_ascii_of_string s).

Definition within (lo hi c : char) : bool := (lo <=? c) && (c <=? hi).

(** [str.isspace] on one character: the code points whitespace for
    [str.strip()] (U+0009..000D, U+001C..0020, U+0085, U+00A0, U+1680,
    U+2000..200A, U+2028, U+2029, U+202F, U+205F, U+3000). *)
Definition isspace (c : char) : bool :=
  within 9 13 c || within 28 32 c || (c =? 133) || (c =? 160) || (c =? 5760)
  || within 8192 8202 c || (c =? 8232) || (c =? 8233) || (c =? 8239)
  || (c =? 8287) || (c =? 12288).

(** The line boundaries of [str.splitlines]: LF, VT, FF, CR, FS, GS, RS,
    NEL, LS and PS. *)
Definition is_linebreak (c : char) : bool :=
  within 10 13 c || within 28 30 c || (c =? 133) || (c =? 8232) || (c =? 8233).

Definition LF : char := 10.
Definition CR : char := 13.

Fixpoint eqb (a b : str) : bool :=
  match a, b with
  | [], [] => true
  | x :: a', y :: b' => (x =? y) && eqb a' b'
  | _, _ => false
  end.

Definition lstrip (s : str) : str := drop_while isspace s.

Definition rstrip (s : str) : str := drop_while_end isspace s.

Definition strip (s : str) : str := rstrip (lstrip s).

(** [s.startswith(p)] *)
Fixpoint startswith (p s : str) : bool :=
  match p, s with
  | [], _ => true
  | x :: p', y :: s' => (x =? y) && startswith p' s'
  | _ :: _, [] => false
  end.

(** [s.endswith(p)] *)
Definition endswith (p s : str) : bool := startswith (rev p) (rev s).

(** [s.find(sub)], [None] for -1. *)
Fixpoint find (sub s : str) : option nat :=
  if startswith sub s then Some 0%nat
  else match s with
       | [] => None
       | _ :: r => option_map S (find sub r)
       end.

(** [sub in s] *)
Definition contains (sub s : str) : bool :=
  match find sub s with Some _ => true | None => false end.

(** [s.split(sep, 1)]: one part when [sep] does not occur, else the text
    before its first occurrence and the text after it. *)
Definition split1 (sep s : str) : list str :=
  match find sep s with
  | None => [s]
  | Some i => [firstn i s; skipn (i + length sep) s]
  end.

(** [s.splitlines()]: a line ends at a line boundary, CR LF counts as one
    boundary, and a final boundary opens no further line. *)
Fixpoint splitlines (s : str) : list str :=
  match s with
  | [] => []
  | c :: r =>
      if is_linebreak c then
        match r with
        | c' :: r' =>
            if (c =? CR) && (c' =? LF) then [] :: splitlines r'
            else [] :: splitlines r
        | [] => [[]]
        end
      else
        match splitlines r with
        | [] => [[c]]
        | l :: ls => (c :: l) :: ls
        end
  end.

(** [sep.join(parts)] *)
Fixpoint join (sep : str) (parts : list str) : str :=
  match parts with
  | [] => []
  | [x] => x
  | x :: rest => x ++ sep ++ join sep rest
  end.

End PyStr.

(** ** Results of fallible code *)

Inductive result (E A : Type) : Type :=
| Ok (a : A)
| Raise (e : E).
Arguments Ok {E A} a.
Arguments Raise {E A} e.

Definition bind {E A B} (m : result E A) (k : A -> result E B) : result E B :=
  match m with
  | Ok a => k a
  | Raise e => Raise e
  end.

Declare Scope result_scope.
Delimit Scope result_scope with result.
Notation "x <- m ;; k" := (bind m (fun x => k))
  (at level 61, m at next level, right associativity) : result_scope.
Notation "'check' b 'else_raise' e ;; k" := (if b then k else Raise e)
  (at level 61, b at next level, e at next level, right associativity) : result_scope.
Open Scope result_scope.

(** ** tools/lint_commit.py *)

Module Lint.
Import PyStr PyList.

Definition MAX_CONTEXT_LINES : nat := 8.

(** The diagnostics handed to [fail], one constructor per message. *)
Inductive LintError : Type :=
| EmptyMessage                         (* commit message is empty *)
| EmptySubject                         (* subject line must not be empty *)
| MissingBlankAfterSubject             (* expected blank line after subject *)
| MissingHeader (header : str)         (* expected '<header>' section header *)
| BadSeparator                         (* expected single blank line between sections *)
| EmptySection (header : str)          (* <header> section must not be empty *)
| ContextNoLines                       (* Context section must include at least one line *)
| ContextEdgeBlank                     (* Context section must not start or end with blank lines *)
| ContextConsecutiveBlanks             (* Context section must not contain consecutive blank lines *)
| ContextTooLong                       (* Context section must be 1-8 lines *)
| NoBullet (section_label : str)       (* ... section must contain at least one bullet *)
| BlankLineInSection (section_label : str)   (* ... section must not contain blank lines *)
| BulletWithoutText (section_label : str)    (* ... bullet must include text *)
| BadChangeFormat (section_label : str)      (* ... bullets must use 'label: description' format *)
| OrphanContinuation (section_label : str)   (* ... continuation line must follow a bullet *)
| EmptyContinuation (section_label : str)    (* ... continuation line must include text *)
| BadLineFormat (section_label : str).       (* ... lines must start with '- ' or be indented continuations *)

(** The verdict of the validator: [fail] writes one diagnostic and yields
    exit status 1, success is exit status 0. *)
Inductive Verdict : Type :=
| Accept
| Reject (e : LintError).

Definition exit_status (v : Verdict) : nat :=
  match v with Accept => 0 | Reject _ => 1 end.

Definition fail (message : LintError) : Verdict := Reject message.

Definition _strip_trailing_blanks (lines : list str) : list str :=
  drop_while_end (fun l => eqb l []) lines.

(** The loop of [_strip_trailing_section_blanks], on the reversed list:
    [trimmed[-1]] is its head and [pop()] drops it. *)
Fixpoint pop_blanks (rev_trimmed : list str) (count : nat) : list str * nat :=
  match rev_trimmed with
  | [] => ([], count)
  | l :: r => if eqb l [] then pop_blanks r (S count) else (rev_trimmed, count)
  end.

Definition _strip_trailing_section_blanks (lines : list str) : list str * nat :=
  let (rev_trimmed, count) := pop_blanks (rev lines) 0 in
  (rev rev_trimmed, count).

(** The loop of [_validate_context_section]; the result is [non_empty]. *)
Fixpoint context_scan (lines : list str) (blank_run non_empty : nat)
  : result LintError nat :=
  match lines with
  | [] => Ok non_empty
  | line :: rest =>
      if truthy (strip line) then context_scan rest 0 (S non_empty)
      else
        let blank_run := S blank_run in
        if 1 <? blank_run then Raise ContextConsecutiveBlanks
        else context_scan rest blank_run non_empty
  end.

Definition _validate_context_section (lines : list str) : option LintError :=
  if negb (truthy lines) then Some ContextNoLines
  else if eqb (nth 0 lines []) [] || eqb (last lines []) [] then Some ContextEdgeBlank
  else
    match context_scan lines 0 0 with
    | Raise e => Some e
    | Ok non_empty =>
        if MAX_CONTEXT_LINES <? non_empty then Some ContextTooLong else None
    end.

(** The loop of [_validate_bullet_section]; the result is [bullet_count]. *)
Fixpoint bullet_scan (section_label : str) (require_colon : bool)
    (lines : list str) (bullet_count : nat) (in_bullet : bool)
  : result LintError nat :=
  match lines with
  | [] => Ok bullet_count
  | line :: rest =>
      if eqb line [] then Raise (BlankLineInSection section_label)
      else if startswith (lit "- ") line then
        let content := skipn 2 line in
        if negb (truthy (strip content)) then Raise (BulletWithoutText section_label)
        else if require_colon && negb (contains (lit ":") content) then
          Raise (BadChangeFormat section_label)
        else
          let parts := split1 (lit ":") content in
          let label := nth 0 parts [] in
          let description := nth 1 parts [] in
          if require_colon
             && (negb (truthy (strip label)) || negb (truthy (strip description)))
          then Raise (BadChangeFormat section_label)
          else bullet_scan section_label require_colon rest (S bullet_count) true
      else if startswith (lit "  ") line || startswith [9%N] line then
        if negb in_bullet then Raise (OrphanContinuation section_label)
        else if negb (truthy (strip line)) then Raise (EmptyContinuation section_label)
        else bullet_scan section_label require_colon rest bullet_count in_bullet
      else Raise (BadLineFormat section_label)
  end.

Definition _validate_bullet_section (lines : list str) (section_label : str)
    (require_colon : bool) : option LintError :=
  if negb (truthy lines) then Some (NoBullet section_label)
  else
    match bullet_scan section_label require_colon lines 0 false with
    | Raise e => Some e
    | Ok bullet_count =>
        if bullet_count =? 0 then Some (NoBullet section_label) else None
    end.

Definition header_context : str := lit "Context:".
Definition header_enables : str := lit "What this enables:".
Definition header_changes : str := lit "Changes (by file):".
Definition header_deferred : str := lit "Deferred:".

(** The table [headers] of [lint_message]: header text and section validator. *)
Definition headers : list (str * (list str -> option LintError)) :=
  [ (header_context, _validate_context_section);
    (header_enables,
     fun lines => _validate_bullet_section lines (lit "What this enables") false);
    (header_changes,
     fun lines => _validate_bullet_section lines (lit "Changes") true);
    (header_deferred,
     fun lines => _validate_bullet_section lines (lit "Deferred") false) ].

(** The [for] loop of [lint_message] over the headers still to come;
    [idx] is the position reached in [lines]. *)
Fixpoint lint_sections (hs : list (str * (list str -> option LintError)))
    (lines : list str) (idx : nat) : Verdict :=
  match hs with
  | [] => Accept
  | (header, validator) :: later =>
      if (length lines <=? idx) || negb (eqb (nth idx lines []) header) then
        fail (MissingHeader header)
      else
        let idx := S idx in
        let check_section (section_lines : list str) (idx : nat) : Verdict :=
          if negb (truthy section_lines) then fail (EmptySection header)
          else
            match validator section_lines with
            | Some error => fail error
            | None => lint_sections later lines idx
            end in
        match later with
        | (next_header, _) :: _ =>
            match index_from eqb next_header lines idx with
            | None => fail (MissingHeader next_header)
            | Some next_idx =>
                let (section_lines, separator_blanks) :=
                  _strip_trailing_section_blanks (slice lines idx next_idx) in
                if negb (separator_blanks =? 1) then fail BadSeparator
                else check_section section_lines next_idx
            end
        | [] => check_section (skipn idx lines) (length lines)
        end
  end.

Definition lint_message (text : str) : Verdict :=
  let lines := _strip_trailing_blanks (splitlines text) in
  if negb (truthy lines) then fail EmptyMessage
  else
    let subject := nth 0 lines [] in
    if negb (truthy (strip subject)) then fail EmptySubject
    else if (length lines <? 3) || negb (eqb (nth 1 lines []) []) then
      fail MissingBlankAfterSubject
    else lint_sections headers lines 2.

End Lint.

(** ** tools/format_commit.py *)

Module Format.
Import PyStr PyList.

Definition MAX_CONTEXT_LINES : nat := 8.

(** A resolved absolute path, as its components below the filesystem root
    ([pathlib]'s [parts]). *)
Definition Path := list str.

(** [str(path)] *)
Definition path_str (p : Path) : str :=
  match p with
  | [] => lit "/"
  | _ => concat (map (fun part => lit "/" ++ part) p)
  end.

(** What [subprocess.run(..., check=False, capture_output=True, text=True)]
    does: it raises [OSError] or completes with some standard output. *)
Inductive RunOutcome : Type :=
| RaisesOSError
| Completed (stdout : str).

(** The state outside the program that the formatter consults. *)
Record World : Type := {
  (** [Path(__file__).resolve().parent.parent] *)
  root : Path;
  (** [(root / path).resolve()] *)
  resolve : str -> Path;
  (** [file_path.exists()] on a resolved path *)
  path_exists : Path -> bool;
  (** [(root / candidate).exists()] *)
  joined_exists : str -> bool;
  (** [subprocess.run(argv, ...)] *)
  subprocess_run : list str -> RunOutcome
}.

(** The [ValueError]s of the formatter, one constructor per message. *)
Inductive FormatError : Type :=
| EmptySubject                       (* subject must not be empty *)
| MissingEntries (option_name : str) (* at least one <option> entry is required *)
| EmptyContext                       (* --context entries must be non-empty *)
| ConsecutiveBlankLines              (* context must not contain consecutive blank lines *)
| ContextTooLong                     (* context must be 1-8 lines *)
| EmptyBulletEntry (label : str)     (* <label> must be non-empty *)
| BlankLineInBullet (label : str)    (* <label> must not contain blank lines *)
| MissingColon (item : str)          (* --change entry must include 'path: description' *)
| MissingLabel (item : str)          (* --change entry missing label before colon *)
| MissingDescription (item : str)    (* --change entry missing description after colon *)
| PathIsRoot                         (* change label must not be the repo root *)
| PathOutsideRepo (path : str)       (* change label path must be within repo: <path> *)
| PathNotFound (path : str).         (* change label path does not exist: <path> *)

Definition res := result FormatError.

Definition blank (line : str) : bool := negb (truthy (strip line)).

(** The command line of [_is_deleted_in_git]. *)
Definition git_ls_deleted (root : Path) (path : str) : list str :=
  [lit "git"; lit "-C"; path_str root; lit "ls-files"; lit "--deleted";
   lit "--"; path].

Section WithWorld.
Variable w : World.

Definition _is_deleted_in_git (root : Path) (path : str) : bool :=
  match subprocess_run w (git_ls_deleted root path) with
  | RaisesOSError => false
  | Completed stdout => mem eqb path (splitlines stdout)
  end.

Definition _should_validate_path (candidate : str) : bool :=
  if contains (lit " ") candidate || contains [9%N] candidate then false
  else if contains (lit "/") candidate || startswith (lit ".") candidate
          || contains (lit ".") candidate then true
  else joined_exists w candidate.

Definition _validate_path (root : Path) (path : str) : res unit :=
  let file_path := resolve w path in
  if list_eqb eqb file_path root then Raise PathIsRoot
  else if negb (is_prefix eqb root file_path) then Raise (PathOutsideRepo path)
  else if negb (path_exists w file_path) then
    if negb (_is_deleted_in_git root path) then Raise (PathNotFound path)
    else Ok tt
  else Ok tt.
End WithWorld.

(** The first loop of [_split_context_lines]: every line of every entry,
    right-stripped. *)
Definition context_raw_lines (entries : list str) : list str :=
  flat_map (fun entry => map rstrip (splitlines entry)) entries.

(** The second loop of [_split_context_lines]. *)
Fixpoint context_clean (lines : list str) (blank_run non_empty : nat)
  : res (list str * nat) :=
  match lines with
  | [] => Ok ([], non_empty)
  | line :: rest =>
      if blank line then
        let blank_run := S blank_run in
        check negb (1 <? blank_run) else_raise ConsecutiveBlankLines ;;
        r <- context_clean rest blank_run non_empty ;;
        Ok ([] :: fst r, snd r)
      else
        r <- context_clean rest 0 (S non_empty) ;;
        Ok (strip line :: fst r, snd r)
  end.

Definition _split_context_lines (entries : list str) : res (list str) :=
  let lines := context_raw_lines entries in
  let lines := drop_while blank lines in
  let lines := drop_while_end blank lines in
  check truthy lines else_raise EmptyContext ;;
  r <- context_clean lines 0 0 ;;
  check negb (MAX_CONTEXT_LINES <? snd r) else_raise ContextTooLong ;;
  Ok (fst r).

(** The loop of [_split_item_lines] over [lines[1:]]. *)
Fixpoint item_continuations (label : str) (lines : list str) : res (list str) :=
  match lines with
  | [] => Ok []
  | line :: rest =>
      check negb (blank line) else_raise BlankLineInBullet label ;;
      more <- item_continuations label rest ;;
      Ok (strip line :: more)
  end.

Definition _split_item_lines (item label : str) : res (list str) :=
  let lines := splitlines item in
  let lines := drop_while blank lines in
  let lines := drop_while_end blank lines in
  check truthy lines else_raise EmptyBulletEntry label ;;
  let first := strip (nth 0 lines []) in
  let first := if startswith (lit "- ") first then strip (skipn 2 first) else first in
  check truthy first else_raise EmptyBulletEntry label ;;
  more <- item_continuations label (tl lines) ;;
  Ok (first :: more).

Definition _format_bullet_lines (lines : list str) (indent : str) : list str :=
  (lit "- " ++ nth 0 lines []) :: map (fun line => indent ++ line) (tl lines).

Definition default_indent : str := lit "  ".

Definition _extract_path_candidate (label : str) : str :=
  if contains (lit " (") label && endswith (lit ")") label
  then strip (nth 0 (split1 (lit " (") label) [])
  else label.

(** The loop of [format_message] over [enables] and over [deferred]. *)
Fixpoint bullet_entries (label : str) (items : list str) : res (list str) :=
  match items with
  | [] => Ok []
  | item :: rest =>
      item_lines <- _split_item_lines item label ;;
      more <- bullet_entries label rest ;;
      Ok (_format_bullet_lines item_lines default_indent ++ more)
  end.

(** The body of the loop of [format_message] over [changes]. *)
Definition change_entry (w : World) (item : str) : res (list str) :=
  item_lines <- _split_item_lines item (lit "--change entry") ;;
  check contains (lit ":") (nth 0 item_lines []) else_raise MissingColon item ;;
  let parts := split1 (lit ":") (nth 0 item_lines []) in
  let label := strip (nth 0 parts []) in
  let description := strip (nth 1 parts []) in
  check truthy label else_raise MissingLabel item ;;
  check truthy description else_raise MissingDescription item ;;
  let path_candidate := _extract_path_candidate label in
  _ <- (if _should_validate_path w path_candidate
        then _validate_path w (root w) path_candidate else Ok tt) ;;
  let item_lines := (label ++ lit ": " ++ description) :: tl item_lines in
  Ok (_format_bullet_lines item_lines default_indent).

Fixpoint change_entries (w : World) (items : list str) : res (list str) :=
  match items with
  | [] => Ok []
  | item :: rest =>
      lines <- change_entry w item ;;
      more <- change_entries w rest ;;
      Ok (lines ++ more)
  end.

Definition format_message (w : World)
    (subject : str) (context enables changes deferred : list str) : res str :=
  let subject := strip subject in
  check truthy subject else_raise EmptySubject ;;
  check truthy context else_raise MissingEntries (lit "--context") ;;
  context_lines <- _split_context_lines context ;;
  check truthy enables else_raise MissingEntries (lit "--enable") ;;
  enable_lines <- bullet_entries (lit "--enable entry") enables ;;
  check truthy changes else_raise MissingEntries (lit "--change") ;;
  change_lines <- change_entries w changes ;;
  check truthy deferred else_raise MissingEntries (lit "--deferred") ;;
  deferred_lines <- bullet_entries (lit "--deferred entry") deferred ;;
  let lines :=
    [subject; []; lit "Context:"] ++ context_lines
    ++ [[]; lit "What this enables:"] ++ enable_lines
    ++ [[]; lit "Changes (by file):"] ++ change_lines
    ++ [[]; lit "Deferred:"] ++ deferred_lines in
  Ok (join [LF] lines ++ [LF]).

End Format.

(** ** Vocabulary of the statements *)

Module Shape.
Import PyList PyStr.

(** A string has text when some character of it is not whitespace. *)
Definition has_text (s : str) : bool := existsb (fun c => negb (isspace c)) s.

(** A string is a single line when it holds no line boundary. *)
Definition one_line (s : str) : Prop := Forall (fun c => is_linebreak c = false) s.

(** The lines of one rendered bullet entry: the bullet line, whose content
    has text, then its indented continuation lines, each with text.  In the
    Changes section the content is a label free of colons, a colon, a space
    and a description. *)
Inductive item_block (require_colon : bool) : list str -> Prop :=
| Item_block (first : str) (conts : list str) :
    has_text first = true ->
    (require_colon = true ->
     exists label description,
       first = label ++ lit ": " ++ description /\ ~ In 58%N label
       /\ has_text label = true /\ has_text description = true) ->
    Forall (fun c => has_text c = true) conts ->
    item_block require_colon
      ((lit "- " ++ first) :: map (fun c => lit "  " ++ c) conts).

(** The body of a bullet section: rendered entries one after the other. *)
Inductive bullet_body (require_colon : bool) : list str -> Prop :=
| Body_nil : bullet_body require_colon []
| Body_cons (blk more : list str) :
    item_block require_colon blk -> bullet_body require_colon more ->
    bullet_body require_colon (blk ++ more).

(** A line that opens with the bullet marker or with the two-space indent. *)
Definition marked (line : str) : Prop :=
  exists x, line = lit "- " ++ x \/ line = lit "  " ++ x.

(** The lines of a message, as [format_message] lays them out. *)
Definition message_lines (subject : str) (context_lines enable_lines change_lines
    deferred_lines : list str) : list str :=
  [subject; []; Lint.header_context] ++ context_lines
  ++ [[]; Lint.header_enables] ++ enable_lines
  ++ [[]; Lint.header_changes] ++ change_lines
  ++ [[]; Lint.header_deferred] ++ deferred_lines.

(** The text of a message: its lines, each ended by a line feed. *)
Definition message_text (lines : list str) : str := join [LF] lines ++ [LF].

(** The lines [_split_context_lines] works on: those of the entries, without
    the blank ones at either end. *)
Definition context_core (entries : list str) : list str :=
  drop_while_end Format.blank (drop_while Format.blank (Format.context_raw_lines entries)).

(** Two neighbouring lines that are both blank. *)
Fixpoint adjacent_blanks (lines : list str) : bool :=
  match lines with
  | [] => false
  | a :: rest =>
      match rest with
      | [] => false
      | b :: _ => (Format.blank a && Format.blank b) || adjacent_blanks rest
      end
  end.

(** The number of lines that are not blank. *)
Definition count_text (lines : list str) : nat := length (filter has_text lines).

(** [format_message] gets as far as its loop over the change entries:
    subject, context and enable entries raise nothing. *)
Definition reaches_changes (subject : str) (context enables : list str) : Prop :=
  has_text subject = true
  /\ (exists context_lines, Format._split_context_lines context = Ok context_lines)
  /\ enables <> []
  /\ (exists enable_lines,
        Format.bullet_entries (lit "--enable entry") enables = Ok enable_lines).

(** The first line of a change entry, once the entry is split into lines,
    reads [before], a colon, [after], with no colon in [before]; [conts] are
    its continuation lines. *)
Definition change_parts (item before after : str) (conts : list str) : Prop :=
  Format._split_item_lines item (lit "--change entry")
  = Ok ((before ++ 58%N :: after) :: conts)
  /\ ~ In 58%N before.

(** The path check [format_message] runs on the label of a change entry. *)
Definition check_label (w : Format.World) (label : str) : Format.res unit :=
  if Format._should_validate_path w (Format._extract_path_candidate label)
  then Format._validate_path w (Format.root w) (Format._extract_path_candidate label)
  else Ok tt.

(** A rendered change entry. *)
Definition rendered_change (label description : str) (conts : list str) : list str :=
  (lit "- " ++ label ++ lit ": " ++ description)
  :: map (fun c => lit "  " ++ c) conts.

End Shape.

(** ** Concrete worlds and inputs *)

Module Examples.
Import PyList PyStr Format.

(** A line feed inside a literal. *)
Definition nl : string := String "010" EmptyString.

(** A checkout at [/repo] where every relative name resolves to a child of
    the root. *)
Definition repo : Path := [lit "repo"].
Definition child (name : str) : Path := [lit "repo"; name].

(** Every path exists. *)
Definition world_present : World :=
  {| root := repo; resolve := child; path_exists := fun _ => true;
     joined_exists := fun _ => true;
     subprocess_run := fun _ => Completed [] |}.

(** No path exists and git lists nothing as deleted. *)
Definition world_absent : World :=
  {| root := repo; resolve := child; path_exists := fun _ => false;
     joined_exists := fun _ => false;
     subprocess_run := fun _ => Completed [] |}.

(** No path exists and git cannot be started. *)
Definition world_no_git : World :=
  {| root := repo; resolve := child; path_exists := fun _ => false;
     joined_exists := fun _ => false;
     subprocess_run := fun _ => RaisesOSError |}.

(** No path exists and git lists as deleted the path it is asked about. *)
Definition world_deleted : World :=
  {| root := repo; resolve := child; path_exists := fun _ => false;
     joined_exists := fun _ => false;
     subprocess_run := fun argv => Completed (last argv [] ++ [LF]) |}.

(** The example of the round trip. *)
Definition caching_subject : str := lit "Add caching layer".
Definition caching_context : list str := [lit "Reduces repeated lookups"].
Definition caching_enables : list str := [lit "Faster repeated reads"].
Definition caching_changes : list str := [lit "cache.py: add LRU cache (new file)"].
Definition caching_deferred : list str := [lit "Add eviction metrics"].

Definition caching_text : str :=
  Shape.message_text
    (Shape.message_lines caching_subject caching_context
       [lit "- Faster repeated reads"]
       [lit "- cache.py: add LRU cache (new file)"]
       [lit "- Add eviction metrics"]).

(** A message whose change bullet names a path that need not exist. *)
Definition nonexistent_path : str := lit "nonexistent/file.py".

Definition nonexistent_text : str :=
  Shape.message_text
    (Shape.message_lines (lit "Subject") [lit "Why"] [lit "- Gain"]
       [lit "- nonexistent/file.py: desc"] [lit "- Later"]).

(** Context entries of nine and of eight lines with text, and one of nine
    lines with two blank lines after the first. *)
Definition nine_lines : list str :=
  [lit ("1" ++ nl ++ "2" ++ nl ++ "3" ++ nl ++ "4" ++ nl ++ "5" ++ nl ++ "6"
        ++ nl ++ "7" ++ nl ++ "8" ++ nl ++ "9")%string].

Definition eight_lines : list str :=
  [lit ("1" ++ nl ++ "2" ++ nl ++ "3" ++ nl ++ "4" ++ nl ++ "5" ++ nl ++ "6"
        ++ nl ++ "7" ++ nl ++ "8")%string].

Definition nine_lines_gap : list str :=
  [lit ("1" ++ nl ++ nl ++ nl ++ "2" ++ nl ++ "3" ++ nl ++ "4" ++ nl ++ "5"
        ++ nl ++ "6" ++ nl ++ "7" ++ nl ++ "8" ++ nl ++ "9")%string].

(** One context entry of the lines [a], blank, blank, [b], and the four
    entries [a], empty, empty, [b]. *)
Definition gap_entry : list str := [lit ("a" ++ nl ++ nl ++ nl ++ "b")%string].
Definition four_entries : list str := [lit "a"; []; []; lit "b"].

(** A message with the context body [body]. *)
Definition text_with_context (body : list str) : str :=
  Shape.message_text
    (Shape.message_lines (lit "Subject") body [lit "- Gain"] [lit "- note: text"]
       [lit "- Later"]).

(** A subject of two lines. *)
Definition two_line_subject : str := lit "a" ++ [LF] ++ lit "b".

End Examples.

(** ** The lines of a bullet section *)

Module Grammar.
Import PyList PyStr.

(** A line [_validate_bullet_section] takes for a bullet: the marker, then
    content with text; in a section that requires a colon, content with a
    colon that has text before and after its first colon. *)
Definition bullet_ok (require_colon : bool) (line : str) : bool :=
  startswith (lit "- ") line
  && truthy (strip (skipn 2 line))
  && (negb require_colon
      || (contains (lit ":") (skipn 2 line)
          && truthy (strip (nth 0 (split1 (lit ":") (skipn 2 line)) []))
          && truthy (strip (nth 1 (split1 (lit ":") (skipn 2 line)) [])))).

(** A line it takes for a continuation: no marker, an indent of two spaces
    or a tab, and text. *)
Definition continuation_ok (line : str) : bool :=
  negb (startswith (lit "- ") line)
  && (startswith (lit "  ") line || startswith [9%N] line)
  && truthy (strip line).

(** The lines [_split_item_lines] works on: those of the entry, without the
    blank ones at either end. *)
Definition item_core (item : str) : list str :=
  drop_while_end Format.blank (drop_while Format.blank (splitlines item)).

(** The first line of an entry, trimmed, without its bullet marker. *)
Definition unmarked (first : str) : str :=
  if startswith (lit "- ") first then strip (skipn 2 first) else first.

(** An entry all of whose lines are blank; the empty entry is one. *)
Definition blank_entry (entry : str) : bool :=
  forallb Format.blank (splitlines entry).

(** A text with each line feed replaced by carriage return, line feed. *)
Definition crlf (s : str) : str :=
  flat_map (fun c => if (c =? LF)%N then [CR; LF] else [c]) s.

End Grammar.

(** ** Facts about the list operations *)

Module PyListFacts.
Import PyList.

Section DropWhile.
Variable A : Type.
Variable p : A -> bool.

Lemma drop_while_app (a b : list A) :
  drop_while p (a ++ b) =
  if truthy (drop_while p a) then drop_while p a ++ b else drop_while p b.
Proof.
  induction a as [|x a IH]; simpl; [reflexivity|].
  destruct (p x); [exact IH|reflexivity].
Qed.

Lemma drop_while_end_cons (x : A) (r : list A) :
  drop_while_end p (x :: r) =
  match drop_while_end p r with
  | [] => if p x then [] else [x]
  | _ :: _ => x :: drop_while_end p r
  end.
Proof.
  unfold drop_while_end. simpl rev. rewrite drop_while_app.
  destruct (drop_while p (rev r)) as [|y l] eqn:E; simpl.
  - now destruct (p x).
  - destruct (rev l ++ [y]) eqn:E2.
    + now destruct (rev l).
    + rewrite rev_app_distr. simpl. now rewrite E2.
Qed.

Lemma existsb_drop_while (l : list A) :
  existsb (fun x => negb (p x)) (drop_while p l) = existsb (fun x => negb (p x)) l.
Proof.
  induction l as [|x l IH]; simpl; [reflexivity|].
  destruct (p x) eqn:E; simpl; [exact IH|now rewrite E].
Qed.

Lemma truthy_drop_while_end (l : list A) :
  truthy (drop_while_end p l) = existsb (fun x => negb (p x)) l.
Proof.
  induction l as [|x l IH]; [reflexivity|].
  rewrite drop_while_end_cons. simpl. rewrite <- IH.
  destruct (drop_while_end p l); simpl; destruct (p x); reflexivity.
Qed.

Lemma drop_while_idem (l : list A) : drop_while p (drop_while p l) = drop_while p l.
Proof.
  induction l as [|x l IH]; simpl; [reflexivity|].
  destruct (p x) eqn:E; [exact IH|]. simpl. now rewrite E.
Qed.

Lemma drop_while_end_idem (l : list A) :
  drop_while_end p (drop_while_end p l) = drop_while_end p l.
Proof. unfold drop_while_end. now rewrite rev_involutive, drop_while_idem. Qed.

Lemma drop_while_drop_while_end (l : list A) :
  drop_while p (drop_while_end p l) = drop_while_end p (drop_while p l).
Proof.
  induction l as [|x l IH]; [reflexivity|].
  rewrite drop_while_end_cons. simpl drop_while at 2.
  destruct (p x) eqn:E.
  - rewrite <- IH. destruct (drop_while_end p l); simpl; [reflexivity|now rewrite E].
  - rewrite drop_while_end_cons. destruct (drop_while_end p l); simpl; now rewrite E.
Qed.

Lemma drop_while_head (l : list A) (x : A) (r : list A) :
  drop_while p l = x :: r -> p x = false.
Proof.
  induction l as [|y l IH]; simpl; [discriminate|].
  destruct (p y) eqn:E; [exact IH|]. now intros [= <- _].
Qed.

Lemma drop_while_end_last (l r : list A) (x : A) :
  drop_while_end p l = r ++ [x] -> p x = false.
Proof.
  unfold drop_while_end. intros H.
  apply (f_equal (@rev A)) in H. rewrite rev_involutive, rev_app_distr in H.
  simpl in H. eapply drop_while_head, H.
Qed.

Lemma drop_while_end_keep (l : list A) (x : A) :
  p x = false -> drop_while_end p (l ++ [x]) = l ++ [x].
Proof.
  intros H. unfold drop_while_end. rewrite rev_app_distr. simpl. rewrite H.
  change (x :: rev l) with (rev [x] ++ rev l).
  now rewrite <- rev_app_distr, rev_involutive.
Qed.

Variable P : A -> Prop.

Lemma Forall_drop_while (l : list A) : Forall P l -> Forall P (drop_while p l).
Proof.
  induction 1 as [|x l Hx Hl IH]; simpl; [constructor|].
  destruct (p x); [exact IH|now constructor].
Qed.

Lemma Forall_drop_while_end (l : list A) : Forall P l -> Forall P (drop_while_end p l).
Proof.
  intros H. unfold drop_while_end. apply Forall_rev, Forall_drop_while, Forall_rev, H.
Qed.
End DropWhile.

Section Equality.
Variable A : Type.
Variable eqbA : A -> A -> bool.
Hypothesis eqbA_eq : forall x y, eqbA x y = true <-> x = y.

Lemma list_eqb_eq (a b : list A) : list_eqb eqbA a b = true <-> a = b.
Proof.
  revert b; induction a as [|x a IH]; intros [|y b]; simpl;
    try (split; (discriminate || reflexivity)).
  rewrite andb_true_iff, eqbA_eq, IH. split.
  - now intros [-> ->].
  - now intros [= -> ->].
Qed.

Lemma is_prefix_spec (a b : list A) :
  is_prefix eqbA a b = true <-> exists r, b = a ++ r.
Proof.
  revert b; induction a as [|x a IH]; intros b; simpl.
  - split; eauto.
  - destruct b as [|y b].
    + split; [discriminate|]. intros [r H]. discriminate.
    + rewrite andb_true_iff, eqbA_eq, IH. split.
      * intros [-> [r ->]]. eauto.
      * intros [r [= -> ->]]. eauto.
Qed.
End Equality.

Lemma drop_while_end_nil (A : Type) (p : A -> bool) (l : list A) :
  drop_while_end p l = [] <-> Forall (fun x => p x = true) l.
Proof.
  pose proof (truthy_drop_while_end p l) as H.
  rewrite Forall_forall. split.
  - intros E x Hx. rewrite E in H. simpl in H.
    destruct (p x) eqn:Ep; [reflexivity|].
    assert (Hex : existsb (fun x => negb (p x)) l = true).
    { apply existsb_exists. exists x. now rewrite Ep. }
    congruence.
  - intros Hall. destruct (drop_while_end p l); [reflexivity|].
    simpl in H. symmetry in H. apply existsb_exists in H as (x & Hx & Hp).
    rewrite (Hall x Hx) in Hp. discriminate.
Qed.

Lemma list_ends (A : Type) (l : list A) :
  l <> [] -> exists r x, l = r ++ [x].
Proof.
  intros H. destruct (exists_last H) as (r & x & ->). eauto.
Qed.

End PyListFacts.

(** ** Facts about the string and list operations *)

Module PyStrFacts.
Import PyList PyStr Shape PyListFacts.

Lemma eqb_refl (a : str) : eqb a a = true.
Proof. induction a as [|x a IH]; simpl; [reflexivity|]. now rewrite N.eqb_refl. Qed.

Lemma eqb_eq (a b : str) : eqb a b = true <-> a = b.
Proof.
  split.
  - revert b; induction a as [|x a IH]; intros [|y b]; simpl; try discriminate; auto.
    intros H. apply andb_true_iff in H as [Hx Hr].
    apply N.eqb_eq in Hx. f_equal; auto.
  - intros ->. apply eqb_refl.
Qed.

Lemma eqb_neq (a b : str) : eqb a b = false <-> a <> b.
Proof.
  destruct (eqb a b) eqn:E.
  - apply eqb_eq in E. split; [discriminate|congruence].
  - split; [|reflexivity]. intros _ H. apply eqb_eq in H. congruence.
Qed.

Lemma eqb_nil_r (a : str) : eqb a [] = negb (truthy a).
Proof. now destruct a. Qed.


(** *** Stripping *)

Lemma truthy_strip (s : str) : truthy (strip s) = has_text s.
Proof.
  unfold strip, rstrip, lstrip, has_text.
  now rewrite truthy_drop_while_end, existsb_drop_while.
Qed.

Lemma strip_idem (s : str) : strip (strip s) = strip s.
Proof.
  unfold strip, rstrip, lstrip.
  now rewrite drop_while_drop_while_end, drop_while_idem, drop_while_end_idem.
Qed.

Lemma strip_rstrip (s : str) : strip (rstrip s) = strip s.
Proof.
  unfold strip, rstrip, lstrip.
  now rewrite drop_while_drop_while_end, drop_while_end_idem.
Qed.

Lemma has_text_strip (s : str) : has_text (strip s) = has_text s.
Proof. now rewrite <- (truthy_strip (strip s)), strip_idem, truthy_strip. Qed.

Lemma has_text_app (a b : str) : has_text (a ++ b) = has_text a || has_text b.
Proof. apply existsb_app. Qed.


Lemma Forall_strip (P : char -> Prop) (s : str) : Forall P s -> Forall P (strip s).
Proof. intros H. apply Forall_drop_while_end, Forall_drop_while, H. Qed.

Lemma Forall_rstrip (P : char -> Prop) (s : str) : Forall P s -> Forall P (rstrip s).
Proof. apply Forall_drop_while_end. Qed.

(** *** Lines *)

Lemma splitlines_line (line rest : str) :
  one_line line -> splitlines (line ++ LF :: rest) = line :: splitlines rest.
Proof.
  induction 1 as [|c line Hc Hl IH].
  - simpl. destruct rest; reflexivity.
  - simpl app. cbn [splitlines]. rewrite Hc.
    now rewrite IH.
Qed.

Lemma splitlines_join (lines : list str) :
  lines <> [] -> Forall one_line lines ->
  splitlines (join [LF] lines ++ [LF]) = lines.
Proof.
  intros Hne H. induction H as [|x lines Hx Hl IH]; [congruence|].
  destruct lines as [|y lines].
  - simpl. rewrite splitlines_line by assumption. reflexivity.
  - change (join [LF] (x :: y :: lines) ++ [LF])
      with ((x ++ LF :: join [LF] (y :: lines)) ++ [LF]).
    rewrite <- app_assoc, <- app_comm_cons.
    rewrite splitlines_line by assumption.
    rewrite IH by congruence. reflexivity.
Qed.

Lemma splitlines_one_line_aux (n : nat) (s : str) :
  (length s <= n)%nat -> Forall one_line (splitlines s).
Proof.
  revert s; induction n as [|n IH]; intros s Hlen.
  - destruct s; [constructor|simpl in Hlen; lia].
  - destruct s as [|c r]; [constructor|]. simpl in Hlen.
    cbn [splitlines]. destruct (is_linebreak c) eqn:Ec.
    + destruct r as [|c' r']; [repeat constructor|].
      destruct ((c =? CR)%N && (c' =? LF)%N).
      * constructor; [constructor|]. apply IH. simpl in Hlen. lia.
      * constructor; [constructor|]. apply IH. lia.
    + assert (Hr : Forall one_line (splitlines r)) by (apply IH; lia).
      destruct (splitlines r) as [|l ls].
      * repeat constructor. exact Ec.
      * inversion Hr; subst. constructor; [constructor|]; assumption.
Qed.

Lemma splitlines_one_line (s : str) : Forall one_line (splitlines s).
Proof. apply (splitlines_one_line_aux (n := length s)). lia. Qed.

(** *** Searching for a one-character separator *)

Lemma find_single_app (c : char) (a b : str) :
  ~ In c a -> find [c] (a ++ c :: b) = Some (length a).
Proof.
  induction a as [|x a IH]; intros Hn.
  - simpl. now rewrite N.eqb_refl.
  - simpl. destruct (c =? x)%N eqn:E.
    + apply N.eqb_eq in E. subst. exfalso. apply Hn. now left.
    + simpl. rewrite IH; [reflexivity|]. intros H. apply Hn. now right.
Qed.

Lemma find_single_found (c : char) (s : str) (i : nat) :
  find [c] s = Some i ->
  exists a b, s = a ++ c :: b /\ ~ In c a /\ length a = i.
Proof.
  revert i; induction s as [|x s IH]; intros i; simpl; [discriminate|].
  destruct (c =? x)%N eqn:E; simpl.
  - intros [= <-]. apply N.eqb_eq in E. subst.
    exists [], s. repeat split; auto.
  - destruct (find [c] s) as [j|] eqn:F; simpl; [|discriminate].
    intros [= <-]. destruct (IH j eq_refl) as (a & b & -> & Hn & Hl).
    exists (x :: a), b. repeat split; simpl; [|congruence].
    intros [H|H]; [|auto]. subst. now rewrite N.eqb_refl in E.
Qed.

Lemma split1_single_app (c : char) (a b : str) :
  ~ In c a -> split1 [c] (a ++ c :: b) = [a; b].
Proof.
  intros Hn. unfold split1. rewrite find_single_app by assumption.
  rewrite firstn_app, firstn_all, Nat.sub_diag. simpl firstn. rewrite app_nil_r.
  simpl length. rewrite skipn_app.
  replace (length a + 1 - length a)%nat with 1%nat by lia.
  rewrite skipn_all2 by lia. reflexivity.
Qed.

Lemma contains_single_app (c : char) (a b : str) :
  contains [c] (a ++ c :: b) = true.
Proof.
  unfold contains.
  induction a as [|x a IH]; simpl.
  - now rewrite N.eqb_refl.
  - destruct (c =? x)%N; simpl; [reflexivity|].
    destruct (find [c] (a ++ c :: b)); [reflexivity|discriminate].
Qed.

Lemma contains_single_split (c : char) (s : str) :
  contains [c] s = true ->
  exists a b, s = a ++ c :: b /\ ~ In c a /\ split1 [c] s = [a; b].
Proof.
  unfold contains. destruct (find [c] s) as [i|] eqn:F; [|discriminate].
  intros _. destruct (find_single_found _ _ F) as (a & b & -> & Hn & _).
  exists a, b. repeat split; auto using split1_single_app.
Qed.


End PyStrFacts.

(** ** Facts about the validator *)

Module LintFacts.
Import PyList PyStr Shape PyListFacts PyStrFacts Lint.

Lemma strip_trailing_blanks_keep (l : list str) (x : str) :
  x <> [] -> _strip_trailing_blanks (l ++ [x]) = l ++ [x].
Proof.
  intros H. apply drop_while_end_keep. now apply eqb_neq.
Qed.

Lemma strip_section_blanks_one (body : list str) (x : str) :
  x <> [] ->
  _strip_trailing_section_blanks ((body ++ [x]) ++ [[]]) = (body ++ [x], 1).
Proof.
  intros H. unfold _strip_trailing_section_blanks.
  rewrite !rev_app_distr. simpl.
  apply eqb_neq in H. rewrite H.
  change (x :: rev body) with (rev [x] ++ rev body).
  now rewrite <- rev_app_distr, rev_involutive.
Qed.

Lemma index_at_app (x : str) (body rest : list str) (pos : nat) :
  ~ In x body -> index_at eqb x (body ++ x :: rest) pos = Some (pos + length body).
Proof.
  revert pos; induction body as [|y body IH]; intros pos Hn; simpl.
  - rewrite eqb_refl. f_equal. lia.
  - destruct (eqb y x) eqn:E.
    + apply eqb_eq in E. subst. exfalso. apply Hn. now left.
    + rewrite IH; [f_equal; lia|]. intros H. apply Hn. now right.
Qed.

Lemma skipn_past (A : Type) (pre : list A) (x : A) (rest : list A) :
  skipn (S (length pre)) (pre ++ x :: rest) = rest.
Proof.
  induction pre as [|y pre IH]; [reflexivity|exact IH].
Qed.

(** *** Bullet sections *)

Ltac literals :=
  change (lit "- ") with [45%N; 32%N] in *;
  change (lit "  ") with [32%N; 32%N] in *;
  change (lit ": ") with [58%N; 32%N] in *;
  change (lit ":") with [58%N] in *.

Lemma bullet_scan_block (section_label : str) (rc : bool) (blk rest : list str)
    (n : nat) (b : bool) :
  item_block rc blk ->
  bullet_scan section_label rc (blk ++ rest) n b
  = bullet_scan section_label rc rest (S n) true.
Proof.
  intros [first conts Hfirst Hcolon Hconts].
  rewrite <- app_comm_cons. cbn [bullet_scan]. literals.
  cbn [app eqb startswith skipn N.eqb Pos.eqb andb].
  rewrite truthy_strip, Hfirst. cbn [negb].
  assert (Hrc : forall k : result LintError nat,
    (if rc && negb (contains [58%N] first) then Raise (BadChangeFormat section_label)
     else
       if rc && (negb (truthy (strip (nth 0 (split1 [58%N] first) [])))
                 || negb (truthy (strip (nth 1 (split1 [58%N] first) []))))
       then Raise (BadChangeFormat section_label) else k) = k).
  { intros k. destruct rc; [|reflexivity].
    destruct (Hcolon eq_refl) as (label & description & -> & Hn & Hl & Hd).
    cbn [app].
    rewrite contains_single_app, split1_single_app by assumption.
    cbn [nth andb negb]. rewrite !truthy_strip, Hl.
    change (has_text (32%N :: description)) with (has_text description).
    now rewrite Hd. }
  rewrite Hrc. clear Hrc Hcolon Hfirst.
  induction Hconts as [|c conts Hc Hcs IH]; [reflexivity|].
  cbn [map app bullet_scan]. literals.
  cbn [app eqb startswith skipn N.eqb Pos.eqb andb orb negb].
  rewrite truthy_strip.
  change (has_text (32%N :: 32%N :: c)) with (has_text c).
  rewrite Hc. cbn [negb]. exact IH.
Qed.

Lemma bullet_scan_body (section_label : str) (rc : bool) (lines : list str) :
  bullet_body rc lines ->
  forall n b, exists m,
    bullet_scan section_label rc lines n b = Ok m
    /\ (n <= m)%nat /\ (lines <> [] -> n < m)%nat.
Proof.
  induction 1 as [|blk more Hblk Hmore IH]; intros n b.
  - exists n. simpl. repeat split; [lia|congruence].
  - rewrite bullet_scan_block by assumption.
    destruct (IH (S n) true) as (m & -> & Hle & _).
    exists m. repeat split; lia.
Qed.

Lemma validate_bullet_body (section_label : str) (rc : bool) (lines : list str) :
  bullet_body rc lines -> lines <> [] ->
  _validate_bullet_section lines section_label rc = None.
Proof.
  intros Hb Hne. unfold _validate_bullet_section.
  destruct lines as [|l ls] eqn:E; [congruence|]. cbn [truthy negb].
  destruct (bullet_scan_body section_label Hb 0 false) as (m & -> & _ & Hlt).
  specialize (Hlt Hne). destruct m; [lia|reflexivity].
Qed.

Lemma item_block_marked (rc : bool) (blk : list str) :
  item_block rc blk -> Forall marked blk.
Proof.
  intros [first conts _ _ _]. constructor.
  - exists first. now left.
  - apply Forall_map, Forall_forall. intros c _. exists c. now right.
Qed.

Lemma bullet_body_marked (rc : bool) (lines : list str) :
  bullet_body rc lines -> Forall marked lines.
Proof.
  induction 1; [constructor|]. apply Forall_app. split; [|assumption].
  eapply item_block_marked; eassumption.
Qed.

Lemma item_block_nonempty (rc : bool) (blk : list str) :
  item_block rc blk -> blk <> [].
Proof. intros []. discriminate. Qed.

Lemma marked_nonempty (line : str) : marked line -> line <> [].
Proof. intros [x [-> | ->]]; discriminate. Qed.

Lemma marked_not_header (line : str) :
  marked line ->
  line <> header_enables /\ line <> header_changes /\ line <> header_deferred.
Proof.
  intros [x [-> | ->]]; repeat split; intros H; vm_compute in H; discriminate.
Qed.

(** *** The context section *)

Lemma context_scan_cons (line : str) (rest : list str) (blank_run non_empty : nat) :
  context_scan (line :: rest) blank_run non_empty =
  if truthy (strip line) then context_scan rest 0 (S non_empty)
  else if (1 <? S blank_run)%nat then Raise ContextConsecutiveBlanks
       else context_scan rest (S blank_run) non_empty.
Proof. reflexivity. Qed.

Lemma context_scan_adjacent (lines : list str) :
  adjacent_blanks lines = true ->
  forall blank_run non_empty,
    context_scan lines blank_run non_empty = Raise ContextConsecutiveBlanks.
Proof.
  induction lines as [|a rest IH]; [discriminate|].
  destruct rest as [|b r]; [discriminate|].
  intros Hadj br ne.
  change (adjacent_blanks (a :: b :: r))
    with ((Format.blank a && Format.blank b) || adjacent_blanks (b :: r)) in Hadj.
  unfold Format.blank in Hadj. rewrite context_scan_cons.
  destruct (truthy (strip a)) eqn:Ea; cbn [negb andb orb] in Hadj.
  - now apply IH.
  - destruct (1 <? S br)%nat eqn:E1; [reflexivity|].
    destruct (truthy (strip b)) eqn:Eb; cbn [negb orb] in Hadj.
    + now apply IH.
    + rewrite context_scan_cons, Eb. reflexivity.
Qed.

Lemma context_scan_error (lines : list str) :
  forall blank_run non_empty e,
    context_scan lines blank_run non_empty = Raise e -> e = ContextConsecutiveBlanks.
Proof.
  induction lines as [|a rest IH]; intros br ne e; [discriminate|].
  rewrite context_scan_cons.
  destruct (truthy (strip a)); [apply IH|].
  destruct (1 <? S br)%nat; [now intros [= <-]|apply IH].
Qed.

Lemma validate_context_not_empty_message (lines : list str) :
  _validate_context_section lines <> Some EmptyMessage.
Proof.
  unfold _validate_context_section.
  destruct (negb (truthy lines)); [discriminate|].
  destruct (_ || _); [discriminate|].
  destruct (context_scan lines 0 0) as [n|e] eqn:E.
  - destruct (_ <? _)%nat; discriminate.
  - apply context_scan_error in E. subst. discriminate.
Qed.

Lemma bullet_scan_error (section_label : str) (rc : bool) (lines : list str) :
  forall n b e,
    bullet_scan section_label rc lines n b = Raise e -> e <> EmptyMessage.
Proof.
  induction lines as [|line rest IH]; intros n b e; [discriminate|].
  cbn [bullet_scan].
  repeat match goal with
         | |- (if ?c then _ else _) = _ -> _ => destruct c
         end;
    try (intros [= <-]; discriminate); apply IH.
Qed.

Lemma validate_bullet_not_empty_message (lines : list str) (section_label : str)
    (rc : bool) :
  _validate_bullet_section lines section_label rc <> Some EmptyMessage.
Proof.
  unfold _validate_bullet_section.
  destruct (negb (truthy lines)); [discriminate|].
  destruct (bullet_scan section_label rc lines 0 false) as [n|e] eqn:E.
  - destruct (n =? 0)%nat; discriminate.
  - apply bullet_scan_error in E. congruence.
Qed.

Lemma lint_sections_unfold (header : str) (validator : list str -> option LintError)
    (later : list (str * (list str -> option LintError)))
    (lines : list str) (idx : nat) :
  lint_sections ((header, validator) :: later) lines idx =
  if (length lines <=? idx)%nat || negb (eqb (nth idx lines []) header) then
    fail (MissingHeader header)
  else
    let check_section (section_lines : list str) (idx : nat) : Verdict :=
      if negb (truthy section_lines) then fail (EmptySection header)
      else
        match validator section_lines with
        | Some error => fail error
        | None => lint_sections later lines idx
        end in
    match later with
    | (next_header, _) :: _ =>
        match index_from eqb next_header lines (S idx) with
        | None => fail (MissingHeader next_header)
        | Some next_idx =>
            let (section_lines, separator_blanks) :=
              _strip_trailing_section_blanks (slice lines (S idx) next_idx) in
            if negb (separator_blanks =? 1)%nat then fail BadSeparator
            else check_section section_lines next_idx
        end
    | [] => check_section (skipn (S idx) lines) (length lines)
    end.
Proof. reflexivity. Qed.

Section Sections.
Variables (header : str) (validator : list str -> option LintError).
Variables (pre body : list str) (last_line : str).
Hypothesis last_text : last_line <> [].

(** A section body that ends in a line with text, followed by one blank line
    and the next header, is handed to its validator; when that finds no fault
    the loop goes on at the next header. *)
Lemma lint_sections_section (next_header : str)
    (next_validator : list str -> option LintError)
    (later : list (str * (list str -> option LintError))) (rest : list str) :
  next_header <> [] ->
  ~ In next_header (body ++ [last_line]) ->
  lint_sections ((header, validator) :: (next_header, next_validator) :: later)
    (pre ++ header :: (body ++ [last_line]) ++ [] :: next_header :: rest)
    (length pre)
  = match validator (body ++ [last_line]) with
    | Some error => fail error
    | None =>
        lint_sections ((next_header, next_validator) :: later)
          ((pre ++ header :: (body ++ [last_line]) ++ [[]]) ++ next_header :: rest)
          (length (pre ++ header :: (body ++ [last_line]) ++ [[]]))
    end.
Proof.
  intros Hnh Hnot.
  set (sec := body ++ [last_line]) in *.
  set (lines := pre ++ header :: sec ++ [] :: next_header :: rest).
  assert (Hlines : (pre ++ header :: sec ++ [[]]) ++ next_header :: rest = lines).
  { unfold lines. rewrite <- app_assoc. simpl. now rewrite <- app_assoc. }
  rewrite Hlines.
  match goal with
  | |- _ = match _ with Some _ => _ | None => ?r end =>
      remember r as goes_on eqn:Hgo
  end.
  rewrite lint_sections_unfold. cbv zeta.
  assert (Hlen : (length lines <=? length pre)%nat = false).
  { apply Nat.leb_gt. unfold lines. rewrite length_app. simpl. lia. }
  rewrite Hlen. unfold lines at 1. rewrite nth_middle, eqb_refl. simpl negb.
  cbn [orb].
  unfold index_from. unfold lines at 1. rewrite skipn_past.
  assert (Hidx : index_at eqb next_header (sec ++ [] :: next_header :: rest)
                   (S (length pre)) = Some (S (length pre) + length (sec ++ [[]]))).
  { change (sec ++ [] :: next_header :: rest) with (sec ++ [[]] ++ next_header :: rest).
    rewrite app_assoc. apply index_at_app.
    intros H. apply in_app_or in H as [H|[H|[]]]; [auto|]. now symmetry in H. }
  rewrite Hidx. unfold slice. unfold lines at 1. rewrite skipn_past.
  replace (S (length pre) + length (sec ++ [[]]) - S (length pre))%nat
    with (length (sec ++ [[]])) by lia.
  change (sec ++ [] :: next_header :: rest) with (sec ++ [[]] ++ next_header :: rest).
  rewrite app_assoc, firstn_app, firstn_all, Nat.sub_diag. simpl firstn at 1.
  rewrite app_nil_r.
  unfold sec at 1. rewrite strip_section_blanks_one by assumption.
  simpl Nat.eqb. cbn [negb].
  fold sec.
  assert (Ht : truthy sec = true) by (unfold sec; now destruct body).
  rewrite Ht. cbn [negb]. destruct (validator sec); [reflexivity|]. subst goes_on.
  f_equal. rewrite !length_app. simpl. rewrite !length_app. simpl. lia.
Qed.

Hypothesis valid : validator (body ++ [last_line]) = None.

Lemma lint_sections_step (next_header : str)
    (next_validator : list str -> option LintError)
    (later : list (str * (list str -> option LintError))) (rest : list str) :
  next_header <> [] ->
  ~ In next_header (body ++ [last_line]) ->
  lint_sections ((header, validator) :: (next_header, next_validator) :: later)
    (pre ++ header :: (body ++ [last_line]) ++ [] :: next_header :: rest)
    (length pre)
  = lint_sections ((next_header, next_validator) :: later)
      ((pre ++ header :: (body ++ [last_line]) ++ [[]]) ++ next_header :: rest)
      (length (pre ++ header :: (body ++ [last_line]) ++ [[]])).
Proof.
  intros Hnh Hnot. rewrite lint_sections_section by assumption.
  now rewrite valid.
Qed.

(** The last section runs to the end of the message. *)
Lemma lint_sections_last :
  lint_sections [(header, validator)]
    (pre ++ header :: (body ++ [last_line])) (length pre) = Accept.
Proof.
  set (sec := body ++ [last_line]) in *.
  rewrite lint_sections_unfold. cbv zeta.
  assert (Hlen : (length (pre ++ header :: sec) <=? length pre)%nat = false).
  { apply Nat.leb_gt. rewrite length_app. simpl. lia. }
  rewrite Hlen, nth_middle, eqb_refl. cbn [negb orb].
  rewrite skipn_past, valid.
  assert (Ht : truthy sec = true) by (unfold sec; now destruct body).
  now rewrite Ht.
Qed.
End Sections.

Lemma lint_sections_not_empty_message
    (hs : list (str * (list str -> option LintError))) (lines : list str) :
  Forall (fun hv => forall l, snd hv l <> Some EmptyMessage) hs ->
  forall idx, lint_sections hs lines idx <> Reject EmptyMessage.
Proof.
  induction 1 as [|[header validator] later Hv Hlater IH]; intros idx; [discriminate|].
  rewrite lint_sections_unfold. cbv zeta. cbn [snd] in Hv.
  destruct (_ || _); [discriminate|].
  assert (Hcheck : forall section_lines k,
    (if negb (truthy section_lines) then fail (EmptySection header)
     else match validator section_lines with
          | Some error => fail error
          | None => lint_sections later lines k
          end) <> Reject EmptyMessage).
  { intros sl k. destruct (negb (truthy sl)); [discriminate|].
    destruct (validator sl) as [e|] eqn:E; [|apply IH].
    intros [= ->]. now apply (Hv sl). }
  destruct later as [|[next_header nv] later']; [apply Hcheck|].
  destruct (index_from eqb next_header lines (S idx)); [|discriminate].
  destruct (_strip_trailing_section_blanks _) as [sl blanks].
  destruct (negb (blanks =? 1)%nat); [discriminate|apply Hcheck].
Qed.

Lemma headers_not_empty_message :
  Forall (fun hv => forall l, snd hv l <> Some EmptyMessage) headers.
Proof.
  unfold headers. repeat constructor; cbn [snd]; intros l;
    auto using validate_context_not_empty_message, validate_bullet_not_empty_message.
Qed.

Lemma bullet_body_ends (rc : bool) (lines : list str) :
  bullet_body rc lines -> lines <> [] ->
  exists body last_line,
    lines = body ++ [last_line] /\ last_line <> []
    /\ ~ In header_changes lines /\ ~ In header_deferred lines.
Proof.
  intros Hb Hne. pose proof (bullet_body_marked Hb) as Hm.
  destruct (list_ends Hne) as (body & l & E).
  exists body, l. rewrite Forall_forall in Hm. repeat split.
  - exact E.
  - apply marked_nonempty, Hm. rewrite E. apply in_or_app. right. now left.
  - intros H. apply Hm, marked_not_header in H. tauto.
  - intros H. apply Hm, marked_not_header in H. tauto.
Qed.

(** A message laid out in the four sections, each with a well-formed body,
    is accepted. *)
Lemma lint_message_lines (subject : str)
    (context_lines enable_lines change_lines deferred_lines : list str) :
  has_text subject = true ->
  Forall one_line
    (message_lines subject context_lines enable_lines change_lines deferred_lines) ->
  _validate_context_section context_lines = None ->
  (exists body l, context_lines = body ++ [l] /\ l <> []) ->
  ~ In header_enables context_lines ->
  bullet_body false enable_lines -> enable_lines <> [] ->
  bullet_body true change_lines -> change_lines <> [] ->
  bullet_body false deferred_lines -> deferred_lines <> [] ->
  lint_message
    (message_text
       (message_lines subject context_lines enable_lines change_lines deferred_lines))
  = Accept.
Proof.
  intros Hs Hone Hctx (cb & cl & Ec & Hcl) Hnotin Hen Hen0 Hch Hch0 Hde Hde0.
  destruct (bullet_body_ends Hen Hen0) as (eb & el & Ee & Hel & Hen1 & _).
  destruct (bullet_body_ends Hch Hch0) as (hb & hl & Eh & Hhl & _ & Hch1).
  destruct (bullet_body_ends Hde Hde0) as (db & dl & Ed & Hdl & _ & _).
  pose proof (validate_bullet_body (lit "What this enables") Hen Hen0) as Ven.
  pose proof (validate_bullet_body (lit "Changes") Hch Hch0) as Vch.
  pose proof (validate_bullet_body (lit "Deferred") Hde Hde0) as Vde.
  unfold lint_message, message_text.
  rewrite splitlines_join by (assumption || discriminate).
  assert (Hshape :
    message_lines subject context_lines enable_lines change_lines deferred_lines
    = ([subject; []; header_context] ++ context_lines
       ++ [[]; header_enables] ++ enable_lines
       ++ [[]; header_changes] ++ change_lines
       ++ [[]; header_deferred] ++ db) ++ [dl]).
  { unfold message_lines. rewrite Ed at 1. now rewrite <- !app_assoc. }
  assert (Hkeep :
    _strip_trailing_blanks
      (message_lines subject context_lines enable_lines change_lines deferred_lines)
    = message_lines subject context_lines enable_lines change_lines deferred_lines).
  { rewrite Hshape. now apply strip_trailing_blanks_keep. }
  rewrite Hkeep. clear Hkeep Hshape.
  unfold message_lines at 1 2 3 4. cbn [app truthy negb nth length].
  rewrite truthy_strip, Hs. cbn [negb Nat.ltb Nat.leb orb eqb].
  unfold headers, message_lines.
  subst context_lines enable_lines change_lines deferred_lines.
  change ([subject; []; header_context] ++ (cb ++ [cl])
          ++ [[]; header_enables] ++ (eb ++ [el])
          ++ [[]; header_changes] ++ (hb ++ [hl])
          ++ [[]; header_deferred] ++ db ++ [dl])
    with ([subject; []] ++ header_context :: (cb ++ [cl])
          ++ [] :: header_enables :: ((eb ++ [el])
          ++ [] :: header_changes :: ((hb ++ [hl])
          ++ [] :: header_deferred :: (db ++ [dl])))).
  change 2%nat with (length [subject; @nil N]).
  rewrite lint_sections_step; try assumption; [|discriminate].
  rewrite lint_sections_step; try assumption; [|discriminate].
  rewrite lint_sections_step; try assumption; [|discriminate].
  now apply lint_sections_last.
Qed.

End LintFacts.

(** ** Facts about the formatter *)

Module FormatFacts.
Import PyList PyStr Shape PyListFacts PyStrFacts Format LintFacts.

Lemma bind_ok (E A B : Type) (m : result E A) (k : A -> result E B) (b : B) :
  bind m k = Ok b -> exists a, m = Ok a /\ k a = Ok b.
Proof. destruct m as [a|e]; simpl; [eauto|discriminate]. Qed.

Lemma Ok_inj (E A : Type) (a b : A) : @Ok E A a = Ok b -> a = b.
Proof. now intros [= ->]. Qed.

Lemma blank_has_text (line : str) : blank line = negb (has_text line).
Proof. unfold blank. now rewrite truthy_strip. Qed.

Lemma blank_strip_nil (line : str) : blank line = true -> strip line = [].
Proof. unfold blank. now destruct (strip line). Qed.

(** *** Context lines *)

Lemma context_clean_map (lines : list str) :
  forall blank_run non_empty r,
    context_clean lines blank_run non_empty = Ok r -> fst r = map strip lines.
Proof.
  induction lines as [|line rest IH]; intros br ne r; cbn [context_clean].
  - now intros [= <-].
  - destruct (blank line) eqn:Eb.
    + destruct (negb (1 <? S br)); [|discriminate].
      intros H. apply bind_ok in H as (r' & Hr' & [= <-]).
      cbn [fst map]. rewrite (blank_strip_nil _ Eb). f_equal. eauto.
    + intros H. apply bind_ok in H as (r' & Hr' & [= <-]).
      cbn [fst map]. f_equal. eauto.
Qed.

Lemma context_clean_scan (lines : list str) :
  forall blank_run non_empty r,
    context_clean lines blank_run non_empty = Ok r ->
    Lint.context_scan (fst r) blank_run non_empty = Ok (snd r).
Proof.
  induction lines as [|line rest IH]; intros br ne r; cbn [context_clean].
  - now intros [= <-].
  - destruct (blank line) eqn:Eb.
    + destruct (1 <? S br) eqn:E1; cbn [negb]; [discriminate|].
      intros H. apply bind_ok in H as (r' & Hr' & [= <-]).
      cbn [fst snd Lint.context_scan]. change (strip []) with (@nil char).
      cbn [truthy]. rewrite E1. eauto.
    + intros H. apply bind_ok in H as (r' & Hr' & [= <-]).
      cbn [fst snd Lint.context_scan].
      rewrite strip_idem. unfold blank in Eb. apply negb_false_iff in Eb.
      rewrite Eb. eauto.
Qed.

Lemma split_context_lines_ok (entries cleaned : list str) :
  _split_context_lines entries = Ok cleaned ->
  exists n,
    context_core entries <> []
    /\ context_clean (context_core entries) 0 0 = Ok (cleaned, n)
    /\ (n <= MAX_CONTEXT_LINES)%nat.
Proof.
  unfold _split_context_lines. fold (context_core entries).
  destruct (context_core entries) as [|l ls] eqn:E; [discriminate|].
  cbn [truthy]. intros H. apply bind_ok in H as ([c n] & Hc & H).
  cbn [fst snd] in H. destruct (MAX_CONTEXT_LINES <? n) eqn:En; [discriminate|].
  cbn [negb] in H. injection H as <-.
  exists n. repeat split; [discriminate|exact Hc|]. now apply Nat.ltb_ge.
Qed.

Lemma context_core_first (entries : list str) (x : str) (r : list str) :
  context_core entries = x :: r -> has_text x = true.
Proof.
  unfold context_core. rewrite <- drop_while_drop_while_end. intros H.
  apply drop_while_head in H. rewrite blank_has_text in H.
  now apply negb_false_iff.
Qed.

Lemma context_core_last (entries : list str) (r : list str) (x : str) :
  context_core entries = r ++ [x] -> has_text x = true.
Proof.
  unfold context_core. intros H.
  apply drop_while_end_last in H. rewrite blank_has_text in H.
  now apply negb_false_iff.
Qed.

Lemma context_raw_one_line (entries : list str) :
  Forall one_line (context_raw_lines entries).
Proof.
  unfold context_raw_lines. induction entries as [|e es IH]; [constructor|].
  cbn [flat_map]. apply Forall_app. split; [|exact IH].
  apply Forall_map. eapply Forall_impl; [|apply splitlines_one_line].
  intros l Hl. now apply Forall_rstrip.
Qed.

Lemma context_core_one_line (entries : list str) :
  Forall one_line (context_core entries).
Proof.
  apply Forall_drop_while_end, Forall_drop_while, context_raw_one_line.
Qed.

(** The context lines the formatter emits satisfy the validator's rules for
    the Context section. *)
Lemma split_context_lines_valid (entries cleaned : list str) :
  _split_context_lines entries = Ok cleaned ->
  Lint._validate_context_section cleaned = None
  /\ Forall one_line cleaned
  /\ cleaned = map strip (context_core entries)
  /\ exists body l, cleaned = body ++ [l] /\ l <> [].
Proof.
  intros H. apply split_context_lines_ok in H as (n & Hne & Hc & Hn).
  pose proof (context_clean_map _ _ _ Hc) as Hmap. cbn [fst] in Hmap.
  pose proof (context_clean_scan _ _ _ Hc) as Hscan. cbn [fst snd] in Hscan.
  destruct (list_ends Hne) as (r & x & Hrx).
  assert (Hx : has_text x = true) by (eapply context_core_last; eauto).
  assert (Hlast : cleaned = map strip r ++ [strip x]).
  { rewrite Hmap, Hrx, map_app. reflexivity. }
  assert (Hsx : strip x <> []).
  { intros E. rewrite <- truthy_strip, E in Hx. discriminate. }
  repeat split.
  - unfold Lint._validate_context_section.
    destruct (context_core entries) as [|f fs] eqn:Ef; [congruence|].
    assert (Hf : has_text f = true) by (eapply context_core_first; eauto).
    assert (Ht : truthy cleaned = true) by now rewrite Hmap.
    assert (H0 : nth 0 cleaned [] = strip f) by now rewrite Hmap.
    assert (Hl : last cleaned [] = strip x) by (rewrite Hlast; apply last_last).
    rewrite Ht, H0, Hl, !eqb_nil_r, !truthy_strip, Hf, Hx. cbn [negb orb].
    rewrite Hscan.
    destruct (Lint.MAX_CONTEXT_LINES <? n) eqn:E; [|reflexivity].
    apply Nat.ltb_lt in E. unfold Lint.MAX_CONTEXT_LINES, MAX_CONTEXT_LINES in *. lia.
  - rewrite Hmap. apply Forall_map.
    eapply Forall_impl; [|apply context_core_one_line].
    intros l Hl. now apply Forall_strip.
  - exact Hmap.
  - eauto.
Qed.

(** *** Bullet entries *)

Lemma item_continuations_ok (label : str) (lines more : list str) :
  item_continuations label lines = Ok more ->
  more = map strip lines /\ Forall (fun c => has_text c = true) more.
Proof.
  revert more; induction lines as [|line rest IH]; intros more; cbn [item_continuations].
  - intros [= <-]. split; [reflexivity|constructor].
  - destruct (blank line) eqn:Eb; cbn [negb]; [discriminate|].
    intros H. apply bind_ok in H as (m & Hm & [= <-]).
    destruct (IH _ Hm) as [-> Hall]. split; [reflexivity|].
    constructor; [|exact Hall].
    rewrite has_text_strip. rewrite blank_has_text in Eb.
    now apply negb_false_iff.
Qed.

Lemma split_item_lines_ok (item label : str) (item_lines : list str) :
  _split_item_lines item label = Ok item_lines ->
  exists first conts,
    item_lines = first :: conts
    /\ has_text first = true
    /\ Forall (fun c => has_text c = true) conts
    /\ Forall one_line item_lines.
Proof.
  unfold _split_item_lines.
  set (lines := drop_while_end blank (drop_while blank (splitlines item))).
  assert (Hone : Forall one_line lines).
  { apply Forall_drop_while_end, Forall_drop_while, splitlines_one_line. }
  destruct lines as [|x r]; [discriminate|]. cbn [truthy nth tl].
  inversion Hone as [|? ? Hx Hr]; subst.
  set (first := if startswith (lit "- ") (strip x)
                then strip (skipn 2 (strip x)) else strip x).
  assert (Hfirst : exists y, first = strip y /\ one_line y).
  { unfold first. destruct (startswith (lit "- ") (strip x)).
    - eexists; split; [reflexivity|].
      pose proof (Forall_strip Hx) as Hs.
      rewrite <- (firstn_skipn 2 (strip x)) in Hs.
      now apply Forall_app in Hs.
    - eauto. }
  destruct Hfirst as (y & Hy & Hyone).
  destruct (truthy first) eqn:Et; [|discriminate].
  intros H. apply bind_ok in H as (more & Hmore & [= <-]).
  destruct (item_continuations_ok _ _ Hmore) as [Hmap Hall].
  exists first, more. repeat split; [| exact Hall |].
  - rewrite Hy, has_text_strip, <- truthy_strip, <- Hy. exact Et.
  - constructor.
    + rewrite Hy. now apply Forall_strip.
    + rewrite Hmap. apply Forall_map. eapply Forall_impl; [|exact Hr].
      intros l Hl. now apply Forall_strip.
Qed.

Lemma format_bullet_lines_cons (first : str) (conts : list str) :
  _format_bullet_lines (first :: conts) default_indent
  = (lit "- " ++ first) :: map (fun c => lit "  " ++ c) conts.
Proof. reflexivity. Qed.

Lemma format_bullet_one_line (first : str) (conts : list str) :
  Forall one_line (first :: conts) ->
  Forall one_line ((lit "- " ++ first) :: map (fun c => lit "  " ++ c) conts).
Proof.
  intros H. inversion H as [|? ? Hf Hc]; subst. constructor.
  - apply Forall_app. split; [repeat constructor|exact Hf].
  - apply Forall_map. eapply Forall_impl; [|exact Hc].
    intros l Hl. apply Forall_app. split; [repeat constructor|exact Hl].
Qed.

Lemma bullet_entries_ok (label : str) (items lines : list str) :
  bullet_entries label items = Ok lines ->
  bullet_body false lines /\ Forall one_line lines /\ (items <> [] -> lines <> []).
Proof.
  revert lines; induction items as [|item rest IH]; intros lines; cbn [bullet_entries].
  - intros [= <-]. repeat split; [constructor|constructor|congruence].
  - intros H. apply bind_ok in H as (item_lines & Hi & H).
    apply bind_ok in H as (more & Hm & Heq). apply Ok_inj in Heq. subst lines.
    destruct (split_item_lines_ok _ _ Hi) as (first & conts & -> & Hf & Hc & Hone).
    destruct (IH _ Hm) as (Hbody & Hmone & _).
    rewrite format_bullet_lines_cons. repeat split.
    + constructor; [|exact Hbody]. constructor; [exact Hf|discriminate|exact Hc].
    + apply Forall_app. split; [|exact Hmone]. now apply format_bullet_one_line.
    + discriminate.
Qed.

(** *** Change entries *)

(** What an accepted change entry is rendered as. *)
Lemma change_entry_ok (w : World) (item : str) (lines : list str) :
  change_entry w item = Ok lines ->
  exists first conts a b,
    _split_item_lines item (lit "--change entry") = Ok (first :: conts)
    /\ first = a ++ 58%N :: b /\ ~ In 58%N a
    /\ has_text a = true /\ has_text b = true
    /\ Forall (fun c => has_text c = true) conts
    /\ Forall one_line (first :: conts)
    /\ lines = (lit "- " ++ strip a ++ lit ": " ++ strip b)
               :: map (fun c => lit "  " ++ c) conts.
Proof.
  unfold change_entry. intros H.
  apply bind_ok in H as (item_lines & Hi & H).
  destruct (split_item_lines_ok _ _ Hi) as (first & conts & -> & Hf & Hc & Hone).
  cbn [nth tl] in H. change (lit ":") with [58%N] in H.
  destruct (contains [58%N] first) eqn:Ec; [|discriminate].
  destruct (contains_single_split _ _ Ec) as (a & b & -> & Hn & Hs).
  rewrite Hs in H. cbn [nth] in H.
  destruct (truthy (strip a)) eqn:Ea; [|discriminate].
  destruct (truthy (strip b)) eqn:Eb; [|discriminate].
  apply bind_ok in H as (u & _ & Heq). apply Ok_inj in Heq. subst lines.
  rewrite truthy_strip in Ea, Eb.
  exists (a ++ 58%N :: b), conts, a, b. repeat split; auto.
Qed.

Lemma change_entry_block (w : World) (item : str) (lines : list str) :
  change_entry w item = Ok lines ->
  item_block true lines /\ Forall one_line lines.
Proof.
  intros H. apply change_entry_ok in H
    as (first & conts & a & b & _ & -> & Hn & Ha & Hb & Hc & Hone & ->).
  inversion Hone as [|? ? Hab Hcs]; subst.
  apply Forall_app in Hab as [Hoa Hob]. inversion Hob as [|? ? _ Hob']; subst.
  split.
  - constructor; [| |exact Hc].
    + rewrite !has_text_app, has_text_strip, Ha. reflexivity.
    + intros _. exists (strip a), (strip b). repeat split.
      * intros Hin. apply Hn.
        assert (Hall : Forall (fun c => c <> 58%N) (strip a)).
        { apply Forall_strip, Forall_forall. intros c Hc' ->. auto. }
        rewrite Forall_forall in Hall. now apply Hall in Hin.
      * now rewrite has_text_strip.
      * now rewrite has_text_strip.
  - apply format_bullet_one_line. constructor; [|exact Hcs].
    apply Forall_app. split; [now apply Forall_strip|].
    apply Forall_app. split; [repeat constructor|now apply Forall_strip].
Qed.

Lemma change_entries_ok (w : World) (items lines : list str) :
  change_entries w items = Ok lines ->
  bullet_body true lines /\ Forall one_line lines /\ (items <> [] -> lines <> []).
Proof.
  revert lines; induction items as [|item rest IH]; intros lines; cbn [change_entries].
  - intros [= <-]. repeat split; [constructor|constructor|congruence].
  - intros H. apply bind_ok in H as (blk & Hb & H).
    apply bind_ok in H as (more & Hm & [= <-]).
    destruct (change_entry_block _ _ Hb) as [Hblk Hone].
    destruct (IH _ Hm) as (Hbody & Hmone & _).
    repeat split.
    + now constructor.
    + apply Forall_app. now split.
    + intros _ E. apply app_eq_nil in E as [E _].
      now apply (item_block_nonempty Hblk).
Qed.

(** *** The context loop, outcome by outcome *)

Lemma context_clean_cons (line : str) (rest : list str) (blank_run non_empty : nat) :
  context_clean (line :: rest) blank_run non_empty =
  if blank line then
    check negb (1 <? S blank_run) else_raise ConsecutiveBlankLines ;;
    r <- context_clean rest (S blank_run) non_empty ;;
    Ok ([] :: fst r, snd r)
  else
    r <- context_clean rest 0 (S non_empty) ;;
    Ok (strip line :: fst r, snd r).
Proof. reflexivity. Qed.

Lemma adjacent_blanks_cons (a b : str) (r : list str) :
  adjacent_blanks (a :: b :: r) = (blank a && blank b) || adjacent_blanks (b :: r).
Proof. reflexivity. Qed.

Lemma context_clean_adjacent (lines : list str) :
  adjacent_blanks lines = true ->
  forall blank_run non_empty,
    context_clean lines blank_run non_empty = Raise ConsecutiveBlankLines.
Proof.
  induction lines as [|a rest IH]; [discriminate|].
  destruct rest as [|b r]; [discriminate|].
  intros Hadj br ne. rewrite adjacent_blanks_cons in Hadj.
  rewrite context_clean_cons.
  destruct (blank a) eqn:Ea.
  - destruct (1 <? S br) eqn:E1; [reflexivity|]. cbn [negb].
    destruct (blank b) eqn:Eb.
    + rewrite context_clean_cons, Eb. reflexivity.
    + cbn [andb orb] in Hadj. now rewrite (IH Hadj).
  - cbn [andb orb] in Hadj. now rewrite (IH Hadj).
Qed.

Lemma context_clean_spaced (lines : list str) :
  forall blank_run non_empty,
    adjacent_blanks lines = false ->
    blank_run = 0 \/ existsb blank (firstn 1 lines) = false ->
    context_clean lines blank_run non_empty
    = Ok (map strip lines, non_empty + count_text lines).
Proof.
  unfold count_text.
  induction lines as [|a rest IH]; intros br ne Hadj Hbr.
  - cbn. now rewrite Nat.add_0_r.
  - cbn [context_clean map filter]. rewrite <- (negb_involutive (has_text a)).
    rewrite <- blank_has_text.
    assert (Hrest : adjacent_blanks rest = false).
    { destruct rest; [reflexivity|]. rewrite adjacent_blanks_cons in Hadj.
      now apply orb_false_iff in Hadj. }
    destruct (blank a) eqn:Ea; cbn [negb].
    + assert (br = 0) as -> by (destruct Hbr as [?|H]; [assumption|];
        cbn in H; rewrite Ea in H; discriminate).
      cbn [Nat.ltb Nat.leb negb].
      rewrite IH; [|exact Hrest|].
      * cbn [bind fst snd]. now rewrite (blank_strip_nil _ Ea).
      * right. destruct rest as [|b r]; [reflexivity|].
        rewrite adjacent_blanks_cons in Hadj. apply orb_false_iff in Hadj as [H _].
        rewrite Ea in H. cbn [andb] in H. cbn [firstn existsb]. now rewrite H.
    + rewrite IH; [|exact Hrest|now left].
      cbn [bind fst snd length]. do 2 f_equal. lia.
Qed.

Lemma split_context_lines_spaced (entries : list str) :
  context_core entries <> [] ->
  adjacent_blanks (context_core entries) = false ->
  _split_context_lines entries
  = if MAX_CONTEXT_LINES <? count_text (context_core entries)
    then Raise ContextTooLong
    else Ok (map strip (context_core entries)).
Proof.
  intros Hne Hadj. unfold _split_context_lines. fold (context_core entries).
  destruct (context_core entries) as [|l ls] eqn:E; [congruence|].
  cbn [truthy]. rewrite context_clean_spaced by (assumption || now left).
  cbn [bind fst snd Nat.add].
  now destruct (MAX_CONTEXT_LINES <? count_text (l :: ls)).
Qed.

Lemma split_context_lines_adjacent (entries : list str) :
  adjacent_blanks (context_core entries) = true ->
  _split_context_lines entries = Raise ConsecutiveBlankLines.
Proof.
  intros Hadj. unfold _split_context_lines. fold (context_core entries).
  destruct (context_core entries) as [|l ls] eqn:E; [discriminate|].
  cbn [truthy]. now rewrite context_clean_adjacent.
Qed.


(** *** The change loop, outcome by outcome *)

Lemma change_entry_parts (w : World) (item before after : str) (conts : list str) :
  change_parts item before after conts ->
  change_entry w item =
  (check truthy (strip before) else_raise MissingLabel item ;;
   check truthy (strip after) else_raise MissingDescription item ;;
   _ <- check_label w (strip before) ;;
   Ok (rendered_change (strip before) (strip after) conts)).
Proof.
  intros [Hsplit Hn]. unfold change_entry. rewrite Hsplit. cbn [bind nth tl].
  change (lit ":") with [58%N].
  now rewrite contains_single_app, split1_single_app by assumption.
Qed.

Lemma change_entry_no_colon (w : World) (item first : str) (conts : list str) :
  _split_item_lines item (lit "--change entry") = Ok (first :: conts) ->
  contains (lit ":") first = false ->
  change_entry w item = Raise (MissingColon item).
Proof.
  intros Hsplit Hc. unfold change_entry. rewrite Hsplit. cbn [bind nth].
  now rewrite Hc.
Qed.

Lemma change_entry_rendered (w : World) (item : str) (lines : list str) :
  change_entry w item = Ok lines ->
  exists before after conts,
    change_parts item before after conts
    /\ has_text before = true /\ has_text after = true
    /\ check_label w (strip before) = Ok tt
    /\ lines = rendered_change (strip before) (strip after) conts.
Proof.
  intros H. pose proof H as H'. apply change_entry_ok in H'
    as (first & conts & a & b & Hsplit & -> & Hn & Ha & Hb & _ & _ & ->).
  exists a, b, conts.
  assert (Hp : change_parts item a b conts) by (split; assumption).
  rewrite (change_entry_parts w Hp) in H.
  rewrite !truthy_strip, Ha, Hb in H.
  destruct (check_label w (strip a)) as [[]|e] eqn:E; [|discriminate].
  repeat split; assumption.
Qed.

(** *** [format_message], stage by stage *)

Lemma format_message_context_error (w : World) (subject : str)
    (context enables changes deferred : list str) (e : FormatError) :
  has_text subject = true -> context <> [] ->
  _split_context_lines context = Raise e ->
  format_message w subject context enables changes deferred = Raise e.
Proof.
  intros Hs Hc H. unfold format_message. rewrite truthy_strip, Hs.
  destruct context; [congruence|]. cbn [truthy]. now rewrite H.
Qed.

Lemma split_context_lines_entries (context cleaned : list str) :
  _split_context_lines context = Ok cleaned -> context <> [].
Proof. intros H ->. discriminate. Qed.


Lemma format_message_built (w : World) (subject : str)
    (context enables changes deferred : list str)
    (context_lines enable_lines change_lines deferred_lines : list str) :
  has_text subject = true ->
  _split_context_lines context = Ok context_lines ->
  enables <> [] -> bullet_entries (lit "--enable entry") enables = Ok enable_lines ->
  changes <> [] -> change_entries w changes = Ok change_lines ->
  deferred <> [] -> bullet_entries (lit "--deferred entry") deferred = Ok deferred_lines ->
  format_message w subject context enables changes deferred
  = Ok (message_text
          (message_lines (strip subject) context_lines enable_lines change_lines
             deferred_lines)).
Proof.
  intros Hs Hc He0 He Hh0 Hh Hd0 Hd. unfold format_message.
  rewrite truthy_strip, Hs.
  pose proof (split_context_lines_entries Hc) as Hc0.
  destruct context; [congruence|]. cbn [truthy]. rewrite Hc. cbn [bind].
  destruct enables; [congruence|]. cbn [truthy]. rewrite He. cbn [bind].
  destruct changes; [congruence|]. cbn [truthy]. rewrite Hh. cbn [bind].
  destruct deferred; [congruence|]. cbn [truthy]. rewrite Hd. reflexivity.
Qed.

(** *** The path guard *)

Lemma path_eqb_eq (a b : Path) : list_eqb eqb a b = true <-> a = b.
Proof. apply list_eqb_eq, eqb_eq. Qed.

Lemma path_prefix_spec (a b : Path) :
  is_prefix eqb a b = true <-> exists rel, b = a ++ rel.
Proof. apply is_prefix_spec, eqb_eq. Qed.



Lemma validate_path_inside (w : World) (path : str) (rel : Path) :
  rel <> [] -> resolve w path = root w ++ rel ->
  _validate_path w (root w) path =
  if path_exists w (resolve w path) then Ok tt
  else if _is_deleted_in_git w (root w) path then Ok tt
       else Raise (PathNotFound path).
Proof.
  intros Hrel H. unfold _validate_path.
  destruct (list_eqb eqb (resolve w path) (root w)) eqn:E.
  - apply path_eqb_eq in E. rewrite E in H.
    rewrite <- (app_nil_r (root w)) in H at 1.
    apply app_inv_head in H. congruence.
  - rewrite (proj2 (path_prefix_spec _ _)) by eauto. cbn [negb].
    destruct (path_exists w (resolve w path)); cbn [negb]; [reflexivity|].
    now destruct (_is_deleted_in_git w (root w) path).
Qed.








Lemma change_entries_in (w : World) (items lines : list str) (item : str) :
  change_entries w items = Ok lines -> In item items ->
  exists blk before after,
    change_entry w item = Ok blk /\ lines = before ++ blk ++ after.
Proof.
  revert lines; induction items as [|x rest IH]; intros lines H Hin; [destruct Hin|].
  cbn [change_entries] in H.
  apply bind_ok in H as (blk & Hb & H). apply bind_ok in H as (more & Hm & H).
  apply Ok_inj in H. subst lines. destruct Hin as [->|Hin].
  - exists blk, [], more. split; [assumption|reflexivity].
  - destruct (IH _ Hm Hin) as (blk' & before & after & Hb' & ->).
    exists blk', (blk ++ before), after. split; [assumption|].
    now rewrite <- app_assoc.
Qed.

End FormatFacts.

(** ** The properties of the specification *)

Import PyList PyStr Shape Format Examples.
Import PyListFacts PyStrFacts LintFacts FormatFacts.

Lemma In_drop_while (A : Type) (p : A -> bool) (l : list A) (x : A) :
  In x (drop_while p l) -> In x l.
Proof.
  assert (H : Forall (fun y => In y l) (drop_while p l)).
  { apply Forall_drop_while, Forall_forall. auto. }
  rewrite Forall_forall in H. apply H.
Qed.

Lemma In_drop_while_end (A : Type) (p : A -> bool) (l : list A) (x : A) :
  In x (drop_while_end p l) -> In x l.
Proof.
  assert (H : Forall (fun y => In y l) (drop_while_end p l)).
  { apply Forall_drop_while_end, Forall_forall. auto. }
  rewrite Forall_forall in H. apply H.
Qed.

Lemma In_context_core (entries : list str) (x : str) :
  In x (context_core entries) ->
  exists entry line, In entry entries /\ In line (splitlines entry) /\ x = rstrip line.
Proof.
  intros H. apply In_drop_while_end, In_drop_while in H.
  unfold context_raw_lines in H. apply in_flat_map in H as (entry & He & H).
  apply in_map_iff in H as (line & <- & Hl). eauto.
Qed.

(** What a successful [format_message] returns: the message laid out from
    the cleaned context lines and the rendered bullets. *)
Lemma format_message_ok (w : World) (subject : str)
    (context enables changes deferred : list str) (text : str) :
  format_message w subject context enables changes deferred = Ok text ->
  exists context_lines enable_lines change_lines deferred_lines,
    has_text subject = true
    /\ _split_context_lines context = Ok context_lines
    /\ enables <> [] /\ bullet_entries (lit "--enable entry") enables = Ok enable_lines
    /\ changes <> [] /\ change_entries w changes = Ok change_lines
    /\ deferred <> [] /\ bullet_entries (lit "--deferred entry") deferred = Ok deferred_lines
    /\ text = message_text
                (message_lines (strip subject) context_lines enable_lines
                   change_lines deferred_lines).
Proof.
  unfold format_message.
  destruct (truthy (strip subject)) eqn:Es; [|discriminate].
  destruct (truthy context); [|discriminate].
  intros H. apply bind_ok in H as (context_lines & Hc & H).
  destruct enables as [|e es]; [discriminate|]. cbn [truthy] in H.
  apply bind_ok in H as (enable_lines & He & H).
  destruct changes as [|c cs]; [discriminate|]. cbn [truthy] in H.
  apply bind_ok in H as (change_lines & Hch & H).
  destruct deferred as [|d ds]; [discriminate|]. cbn [truthy] in H.
  apply bind_ok in H as (deferred_lines & Hd & H).
  apply Ok_inj in H. subst text.
  exists context_lines, enable_lines, change_lines, deferred_lines.
  rewrite truthy_strip in Es.
  repeat split; try assumption; discriminate.
Qed.

(** *** Round trip *)

(** Every line of a formatted message is a single line once the subject is. *)
Lemma formatted_lines_one_line (w : World) (subject : str)
    (context enables changes : list str)
    (context_lines enable_lines change_lines deferred_lines : list str)
    (label : str) (deferred : list str) :
  one_line (strip subject) ->
  _split_context_lines context = Ok context_lines ->
  bullet_entries (lit "--enable entry") enables = Ok enable_lines ->
  change_entries w changes = Ok change_lines ->
  bullet_entries label deferred = Ok deferred_lines ->
  Forall one_line
    (message_lines (strip subject) context_lines enable_lines change_lines
       deferred_lines).
Proof.
  intros Hs Hc He Hch Hd.
  apply split_context_lines_valid in Hc as (_ & Hc & _).
  apply bullet_entries_ok in He as (_ & He & _).
  apply change_entries_ok in Hch as (_ & Hch & _).
  apply bullet_entries_ok in Hd as (_ & Hd & _).
  unfold message_lines.
  repeat (apply Forall_app; split); try assumption;
    repeat constructor; assumption.
Qed.

(** C1, amended: when the trimmed subject is a single line and no context
    line is, once trimmed, the header [What this enables:], every text that
    [format_message] returns is accepted by [lint_message].  For the example
    (subject [Add caching layer], one entry per section, change
    [cache.py: add LRU cache (new file)]) [format_message] returns the
    canonical text exactly when the path check of [cache.py] passes, and
    raises what that check raises otherwise; the canonical text is accepted. *)
Theorem format_then_lint_accepts :
  (forall (w : World) (subject : str) (context enables changes deferred : list str)
          (text : str),
      one_line (strip subject) ->
      (forall entry line,
          In entry context -> In line (splitlines entry) ->
          strip line <> Lint.header_enables) ->
      format_message w subject context enables changes deferred = Ok text ->
      Lint.lint_message text = Lint.Accept)
  /\ (forall w : World,
         format_message w caching_subject caching_context caching_enables
           caching_changes caching_deferred
         = match _validate_path w (root w) (lit "cache.py") with
           | Ok _ => Ok caching_text
           | Raise e => Raise e
           end)
  /\ Lint.lint_message caching_text = Lint.Accept.
Proof.
  split; [|split].
  - intros w subject context enables changes deferred text Hsubj Hctx H.
    apply format_message_ok in H
      as (cl & el & hl & dl & Hs & Hc & He0 & He & Hh0 & Hh & Hd0 & Hd & ->).
    pose proof (formatted_lines_one_line _ _ _ _ _ _ _ Hsubj Hc He Hh Hd) as Hone.
    destruct (split_context_lines_valid _ Hc) as (Vc & _ & Hmap & Hends).
    destruct (bullet_entries_ok _ _ He) as (Be & _ & Ne).
    destruct (change_entries_ok _ _ Hh) as (Bh & _ & Nh).
    destruct (bullet_entries_ok _ _ Hd) as (Bd & _ & Nd).
    apply lint_message_lines; auto.
    + now rewrite has_text_strip.
    + rewrite Hmap. intros Hin. apply in_map_iff in Hin as (x & Hx & Hin).
      apply In_context_core in Hin as (entry & line & Hentry & Hline & ->).
      rewrite strip_rstrip in Hx. exact (Hctx _ _ Hentry Hline Hx).
  - intros w. cbv -[_validate_path].
    destruct (_validate_path _ _ _); reflexivity.
  - vm_compute. reflexivity.
Qed.

Lemma format_then_lint_accepts_witness :
  one_line (strip caching_subject)
  /\ format_message world_present caching_subject caching_context caching_enables
       caching_changes caching_deferred = Ok caching_text
  /\ Lint.lint_message caching_text = Lint.Accept.
Proof.
  assert (Hs : one_line (strip caching_subject)) by (vm_compute; repeat constructor).
  assert (Hf : format_message world_present caching_subject caching_context
                 caching_enables caching_changes caching_deferred = Ok caching_text)
    by (vm_compute; reflexivity).
  split; [exact Hs|split; [exact Hf|]].
  apply (proj1 format_then_lint_accepts world_present caching_subject caching_context
           caching_enables caching_changes caching_deferred caching_text Hs); [|exact Hf].
  intros entry line [<-|[]] Hl. vm_compute in Hl. destruct Hl as [<-|[]].
  vm_compute. discriminate.
Defined.

(** C1 as stated fails: a subject of two lines and a context line that reads
    [What this enables:] are formatted into texts the validator rejects, and
    the example is not formatted where [cache.py] does not exist. *)
Lemma format_then_lint_rejects :
  (exists text,
      format_message world_present two_line_subject [lit "why"] [lit "gain"]
        [lit "note: text"] [lit "later"] = Ok text
      /\ Lint.lint_message text = Lint.Reject Lint.MissingBlankAfterSubject)
  /\ (exists text,
         format_message world_present (lit "subject") [lit "What this enables:"]
           [lit "gain"] [lit "note: text"] [lit "later"] = Ok text
         /\ Lint.lint_message text = Lint.Reject Lint.BadSeparator)
  /\ format_message world_absent caching_subject caching_context caching_enables
       caching_changes caching_deferred = Raise (PathNotFound (lit "cache.py")).
Proof.
  split; [|split].
  - eexists. split; vm_compute; reflexivity.
  - eexists. split; vm_compute; reflexivity.
  - vm_compute. reflexivity.
Qed.

(** *** The validator and the filesystem *)

Lemma single_bullet (rc : bool) (first : str) :
  has_text first = true ->
  (rc = true ->
   exists label description,
     first = label ++ lit ": " ++ description /\ ~ In 58%N label
     /\ has_text label = true /\ has_text description = true) ->
  bullet_body rc [lit "- " ++ first].
Proof.
  intros Hf Hc.
  change [lit "- " ++ first]
    with (((lit "- " ++ first) :: map (fun c => lit "  " ++ c) []) ++ []).
  repeat constructor; assumption.
Qed.

(** C2: [lint_message] takes the text and nothing else.  A message whose one
    change bullet reads [- label: description] is accepted whatever the
    label names; the message with the bullet [- nonexistent/file.py: desc]
    is accepted, also where the path guard of the formatter raises
    [PathNotFound] for the entry that would produce it. *)
Theorem lint_checks_no_path :
  (forall label description : str,
      one_line label -> one_line description -> ~ In 58%N label ->
      has_text label = true -> has_text description = true ->
      Lint.lint_message
        (message_text
           (message_lines (lit "Subject") [lit "Why"] [lit "- Gain"]
              [lit "- " ++ label ++ lit ": " ++ description] [lit "- Later"]))
      = Lint.Accept)
  /\ Lint.lint_message nonexistent_text = Lint.Accept
  /\ (forall w : World,
         _validate_path w (root w) nonexistent_path
         = Raise (PathNotFound nonexistent_path) ->
         format_message w (lit "Subject") [lit "Why"] [lit "Gain"]
           [lit "nonexistent/file.py: desc"] [lit "Later"]
         = Raise (PathNotFound nonexistent_path)).
Proof.
  split; [|split].
  - intros label description Hl Hd Hn Htl Htd.
    apply lint_message_lines.
    + reflexivity.
    + unfold message_lines. repeat (apply Forall_app; split);
        repeat constructor; try assumption.
      repeat (apply Forall_app; split); repeat constructor; assumption.
    + vm_compute. reflexivity.
    + exists [], (lit "Why"). split; [reflexivity|discriminate].
    + intros [H|[]]. vm_compute in H. discriminate.
    + apply (single_bullet (first := lit "Gain")); [reflexivity|discriminate].
    + discriminate.
    + apply single_bullet.
      * rewrite !has_text_app, Htl. reflexivity.
      * intros _. exists label, description. auto.
    + discriminate.
    + apply (single_bullet (first := lit "Later")); [reflexivity|discriminate].
    + discriminate.
  - vm_compute. reflexivity.
  - intros w H. cbv -[_validate_path root] in H |- *. now rewrite H.
Qed.

Lemma lint_checks_no_path_witness :
  format_message world_absent (lit "Subject") [lit "Why"] [lit "Gain"]
    [lit "nonexistent/file.py: desc"] [lit "Later"]
  = Raise (PathNotFound nonexistent_path)
  /\ Lint.lint_message
       (message_text
          (message_lines (lit "Subject") [lit "Why"] [lit "- Gain"]
             [lit "- " ++ nonexistent_path ++ lit ": " ++ lit "desc"] [lit "- Later"]))
     = Lint.Accept.
Proof.
  split.
  - apply (proj2 (proj2 lint_checks_no_path) world_absent). vm_compute. reflexivity.
  - apply (proj1 lint_checks_no_path nonexistent_path (lit "desc")).
    + vm_compute. repeat constructor.
    + vm_compute. repeat constructor.
    + vm_compute. intuition discriminate.
    + reflexivity.
    + reflexivity.
Defined.

(** *** Length of the context *)

Lemma context_core_nonempty (context : list str) :
  context_core context <> [] -> context <> [].
Proof. intros H ->. now apply H. Qed.

(** C3, amended: when the subject has text and the context lines, without
    the blank ones at either end, hold no two neighbouring blank lines,
    [format_message] raises [ContextTooLong] as soon as more than 8 of them
    have text; with exactly 8 the context is accepted as its trimmed lines,
    and [format_message] returns the message when the bullet sections raise
    nothing either. *)
Theorem context_length_bound (w : World) (subject : str)
    (context enables changes deferred : list str) :
  has_text subject = true ->
  adjacent_blanks (context_core context) = false ->
  (MAX_CONTEXT_LINES < count_text (context_core context) ->
   format_message w subject context enables changes deferred = Raise ContextTooLong)
  /\ (count_text (context_core context) = MAX_CONTEXT_LINES ->
      _split_context_lines context = Ok (map strip (context_core context))
      /\ forall enable_lines change_lines deferred_lines,
          enables <> [] ->
          bullet_entries (lit "--enable entry") enables = Ok enable_lines ->
          changes <> [] -> change_entries w changes = Ok change_lines ->
          deferred <> [] ->
          bullet_entries (lit "--deferred entry") deferred = Ok deferred_lines ->
          format_message w subject context enables changes deferred
          = Ok (message_text
                  (message_lines (strip subject) (map strip (context_core context))
                     enable_lines change_lines deferred_lines))).
Proof.
  intros Hs Hadj.
  assert (Hcore : 0 < count_text (context_core context) -> context_core context <> []).
  { intros H E. rewrite E in H. cbn in H. lia. }
  split.
  - intros Hlong.
    assert (Hne : context_core context <> []) by (apply Hcore; lia).
    apply format_message_context_error;
      [assumption|now apply context_core_nonempty|].
    rewrite split_context_lines_spaced by assumption.
    now rewrite (proj2 (Nat.ltb_lt _ _) Hlong).
  - intros Height.
    assert (Hne : context_core context <> []).
    { apply Hcore. rewrite Height. unfold MAX_CONTEXT_LINES. lia. }
    assert (Hsplit : _split_context_lines context
                     = Ok (map strip (context_core context))).
    { rewrite split_context_lines_spaced by assumption.
      now rewrite Height, Nat.ltb_irrefl. }
    split; [exact Hsplit|].
    intros el hl dl He0 He Hh0 Hh Hd0 Hd.
    now apply format_message_built.
Qed.

Lemma context_length_bound_witness :
  format_message world_present (lit "Subject") nine_lines [lit "Gain"]
    [lit "note: text"] [lit "Later"] = Raise ContextTooLong
  /\ _split_context_lines eight_lines = Ok (map strip (context_core eight_lines)).
Proof.
  split.
  - apply (proj1 (@context_length_bound world_present (lit "Subject") nine_lines
                    [lit "Gain"] [lit "note: text"] [lit "Later"]
                    eq_refl eq_refl)).
    vm_compute. reflexivity.
  - apply (proj2 (@context_length_bound world_present (lit "Subject") eight_lines
                    [lit "Gain"] [lit "note: text"] [lit "Later"]
                    eq_refl eq_refl)).
    reflexivity.
Defined.

(** C3 as stated fails: nine lines with text, two blank lines after the
    first, raise the violation of consecutive blank lines, not that of
    length. *)
Lemma context_length_not_reported :
  count_text (context_core nine_lines_gap) = 9
  /\ format_message world_present (lit "Subject") nine_lines_gap [lit "Gain"]
       [lit "note: text"] [lit "Later"] = Raise ConsecutiveBlankLines.
Proof. split; vm_compute; reflexivity. Qed.

(** *** The colon of a change entry *)

Lemma reaches_changes_example :
  reaches_changes (lit "Subject") [lit "Why"] [lit "Gain"].
Proof.
  repeat split; try discriminate.
  - eexists. vm_compute. reflexivity.
  - eexists. vm_compute. reflexivity.
Qed.

(** The loop over the change entries, once the entries [earlier] are
    accepted, goes on with the next entry. *)
Lemma change_entries_reached (w : World) (earlier : list str) (item : str)
    (rest earlier_lines : list str) :
  change_entries w earlier = Ok earlier_lines ->
  change_entries w (earlier ++ item :: rest)
  = (lines <- change_entry w item ;;
     more <- change_entries w rest ;;
     Ok (earlier_lines ++ lines ++ more)).
Proof.
  revert earlier_lines; induction earlier as [|x earlier IH]; intros earlier_lines H.
  - apply Ok_inj in H. subst earlier_lines. reflexivity.
  - cbn [change_entries] in H.
    apply bind_ok in H as (blk & Hb & H). apply bind_ok in H as (more & Hm & H).
    apply Ok_inj in H. subst earlier_lines.
    cbn [app change_entries]. rewrite Hb, (IH _ Hm). cbn [bind].
    destruct (change_entry w item) as [lines|e]; [|reflexivity]. cbn [bind].
    destruct (change_entries w rest) as [more'|e]; [|reflexivity]. cbn [bind].
    now rewrite <- app_assoc.
Qed.

(** What a change entry raises when [format_message] reaches it, that is
    when subject, context and enable entries raise nothing and the change
    entries before it are accepted, is what [format_message] raises. *)
Lemma format_message_entry_error (w : World) (subject : str)
    (context enables earlier : list str) (item : str) (rest deferred : list str)
    (earlier_lines : list str) (e : FormatError) :
  reaches_changes subject context enables ->
  change_entries w earlier = Ok earlier_lines ->
  change_entry w item = Raise e ->
  format_message w subject context enables (earlier ++ item :: rest) deferred
  = Raise e.
Proof.
  intros (Hs & (cl & Hc) & He0 & (el & He)) Hearlier H. unfold format_message.
  rewrite truthy_strip, Hs.
  pose proof (split_context_lines_entries Hc) as Hc0.
  destruct context; [congruence|]. cbn [truthy]. rewrite Hc. cbn [bind].
  destruct enables; [congruence|]. cbn [truthy]. rewrite He. cbn [bind].
  assert (Ht : truthy (earlier ++ item :: rest) = true) by now destruct earlier.
  rewrite Ht, (change_entries_reached _ _ item rest Hearlier), H. reflexivity.
Qed.

(** C4, amended: for a change entry that [format_message] reaches (subject,
    context and enable entries raise nothing and the change entries
    [earlier], those before it, are accepted) and that splits into lines,
    with first line [first]: when [first] holds no colon [format_message]
    raises [MissingColon]; when the text before the first colon is blank it
    raises [MissingLabel]; when the text before the first colon has text and
    the text after it is blank it raises [MissingDescription]. *)
Theorem change_colon_requirement (w : World) (subject : str)
    (context enables earlier : list str) (earlier_lines : list str)
    (item : str) (rest deferred : list str) (first : str) (conts : list str) :
  reaches_changes subject context enables ->
  change_entries w earlier = Ok earlier_lines ->
  _split_item_lines item (lit "--change entry") = Ok (first :: conts) ->
  (contains (lit ":") first = false ->
   format_message w subject context enables (earlier ++ item :: rest) deferred
   = Raise (MissingColon item))
  /\ (forall before after,
         first = before ++ 58%N :: after -> ~ In 58%N before ->
         has_text before = false ->
         format_message w subject context enables (earlier ++ item :: rest) deferred
         = Raise (MissingLabel item))
  /\ (forall before after,
         first = before ++ 58%N :: after -> ~ In 58%N before ->
         has_text before = true -> has_text after = false ->
         format_message w subject context enables (earlier ++ item :: rest) deferred
         = Raise (MissingDescription item)).
Proof.
  intros Hreach Hearlier Hsplit. split; [|split].
  - intros Hc. eapply format_message_entry_error; [assumption|eassumption|].
    eapply change_entry_no_colon; eassumption.
  - intros before after -> Hn Hb.
    eapply format_message_entry_error; [assumption|eassumption|].
    rewrite (@change_entry_parts w item before after conts) by (split; assumption).
    now rewrite truthy_strip, Hb.
  - intros before after -> Hn Hb Ha.
    eapply format_message_entry_error; [assumption|eassumption|].
    rewrite (@change_entry_parts w item before after conts) by (split; assumption).
    now rewrite !truthy_strip, Hb, Ha.
Qed.

Lemma change_colon_requirement_witness :
  format_message world_present (lit "Subject") [lit "Why"] [lit "Gain"]
    ([lit "note: text"] ++ [lit "no colon here"]) [lit "Later"]
  = Raise (MissingColon (lit "no colon here"))
  /\ format_message world_present (lit "Subject") [lit "Why"] [lit "Gain"]
       ([lit "note: text"] ++ [lit ": description"]) [lit "Later"]
     = Raise (MissingLabel (lit ": description"))
  /\ format_message world_present (lit "Subject") [lit "Why"] [lit "Gain"]
       ([lit "note: text"] ++ [lit "path.py:"]) [lit "Later"]
     = Raise (MissingDescription (lit "path.py:")).
Proof.
  assert (Hearlier : change_entries world_present [lit "note: text"]
                     = Ok [lit "- note: text"]) by (vm_compute; reflexivity).
  split; [|split].
  - apply (proj1 (@change_colon_requirement world_present (lit "Subject")
                    [lit "Why"] [lit "Gain"] [lit "note: text"] [lit "- note: text"]
                    (lit "no colon here") [] [lit "Later"]
                    (lit "no colon here") [] reaches_changes_example Hearlier eq_refl)).
    reflexivity.
  - apply (proj1 (proj2 (@change_colon_requirement world_present (lit "Subject")
                    [lit "Why"] [lit "Gain"] [lit "note: text"] [lit "- note: text"]
                    (lit ": description") [] [lit "Later"]
                    (lit ": description") [] reaches_changes_example Hearlier eq_refl))
             [] (lit " description")).
    + reflexivity.
    + intros [].
    + reflexivity.
  - apply (proj2 (proj2 (@change_colon_requirement world_present (lit "Subject")
                    [lit "Why"] [lit "Gain"] [lit "note: text"] [lit "- note: text"]
                    (lit "path.py:") [] [lit "Later"]
                    (lit "path.py:") [] reaches_changes_example Hearlier eq_refl))
             (lit "path.py") []).
    + reflexivity.
    + vm_compute. intuition discriminate.
    + reflexivity.
    + reflexivity.
Defined.

(** C4 as stated fails: in the entry [:] the text after the colon is blank,
    and the violation raised is that of the label. *)
Lemma change_colon_label_first :
  format_message world_present (lit "Subject") [lit "Why"] [lit "Gain"]
    [lit ":"] [lit "Later"] = Raise (MissingLabel (lit ":")).
Proof. vm_compute. reflexivity. Qed.

(** *** The path guard *)







(** *** Consecutive blank lines *)

Lemma validate_context_adjacent (body : list str) :
  nth 0 body [] <> [] -> last body [] <> [] -> adjacent_blanks body = true ->
  Lint._validate_context_section body = Some Lint.ContextConsecutiveBlanks.
Proof.
  intros Hfirst Hlast Hadj. unfold Lint._validate_context_section.
  destruct body as [|l ls]; [discriminate|]. cbn [truthy negb].
  apply eqb_neq in Hfirst, Hlast. rewrite Hfirst, Hlast. cbn [orb].
  now rewrite context_scan_adjacent.
Qed.

(** C6, amended: context entries whose lines, one after the other, are [a],
    blank, blank, [b] (more generally: whose lines, without the blank ones at
    either end, hold two neighbouring blank lines) make [format_message]
    raise [ConsecutiveBlankLines] once the subject has text; an empty entry
    has no line, so the four entries [a], empty, empty, [b] are the two lines
    [a], [b].  A message that [lint_message] follows as far as the Context
    body (its lines, without the empty ones at the end, are a subject with
    text, an empty line, the header [Context:], the body, one empty line and
    the header [What this enables:], which the body does not hold) and whose
    Context body neither starts nor ends with an empty line and holds two
    neighbouring blank lines is rejected by [lint_message] with
    [ContextConsecutiveBlanks]. *)
Theorem consecutive_blanks_rejected :
  (forall (w : World) (subject : str) (context enables changes deferred : list str),
      has_text subject = true ->
      adjacent_blanks (context_core context) = true ->
      format_message w subject context enables changes deferred
      = Raise ConsecutiveBlankLines)
  /\ (forall context,
         context_raw_lines context = [lit "a"; []; []; lit "b"] ->
         adjacent_blanks (context_core context) = true)
  /\ context_raw_lines four_entries = [lit "a"; lit "b"]
  /\ (forall (text subject : str) (body rest : list str),
         Lint._strip_trailing_blanks (splitlines text)
         = subject :: [] :: Lint.header_context
             :: body ++ [] :: Lint.header_enables :: rest ->
         has_text subject = true ->
         nth 0 body [] <> [] -> last body [] <> [] ->
         ~ In Lint.header_enables body ->
         adjacent_blanks body = true ->
         Lint.lint_message text = Lint.Reject Lint.ContextConsecutiveBlanks).
Proof.
  split; [|split; [|split]].
  - intros w subject context enables changes deferred Hs Hadj.
    apply format_message_context_error; [assumption| |].
    + intros ->. discriminate.
    + now apply split_context_lines_adjacent.
  - intros context H. unfold context_core. rewrite H. reflexivity.
  - reflexivity.
  - intros text subject body rest Hlines Hs Hfirst Hlast Hnot Hadj.
    unfold Lint.lint_message. rewrite Hlines.
    cbn [truthy negb nth length]. rewrite truthy_strip, Hs.
    cbn [negb Nat.ltb Nat.leb orb eqb].
    assert (Hne : body <> []) by (intros ->; discriminate).
    destruct (list_ends Hne) as (b & l & ->).
    rewrite last_last in Hlast.
    unfold Lint.headers.
    change (subject :: [] :: Lint.header_context
              :: (b ++ [l]) ++ [] :: Lint.header_enables :: rest)
      with ([subject; []] ++ Lint.header_context
              :: (b ++ [l]) ++ [] :: Lint.header_enables :: rest).
    change 2 with (length [subject; @nil N]).
    rewrite lint_sections_section; [|assumption|discriminate|assumption].
    rewrite validate_context_adjacent; [reflexivity|assumption| |assumption].
    now rewrite last_last.
Qed.

Lemma consecutive_blanks_rejected_witness :
  format_message world_present (lit "Subject") gap_entry [lit "Gain"]
    [lit "note: text"] [lit "Later"] = Raise ConsecutiveBlankLines
  /\ Lint.lint_message (text_with_context [lit "a"; []; []; lit "b"])
     = Lint.Reject Lint.ContextConsecutiveBlanks.
Proof.
  destruct consecutive_blanks_rejected as (Hformat & Hlines & _ & Hlint).
  split.
  - apply Hformat; [reflexivity|]. apply Hlines. reflexivity.
  - apply (Hlint _ (lit "Subject") [lit "a"; []; []; lit "b"]
             [lit "- Gain"; []; Lint.header_changes; lit "- note: text"; [];
              Lint.header_deferred; lit "- Later"]).
    + vm_compute. reflexivity.
    + reflexivity.
    + discriminate.
    + discriminate.
    + vm_compute. intuition discriminate.
    + reflexivity.
Defined.

(** C6 as stated fails: a Context body that opens with two empty lines is
    rejected for its blank first line; with the body [a], empty, empty, [b]
    a message with a blank subject is rejected for its subject and one
    without the header [What this enables:] for the missing header; and the
    four context entries [a], empty, empty, [b] are formatted as the two
    lines [a], [b]. *)
Lemma consecutive_blanks_other_outcomes :
  Lint.lint_message (text_with_context [[]; []; lit "a"])
  = Lint.Reject Lint.ContextEdgeBlank
  /\ Lint.lint_message
       (message_text
          (message_lines (lit " ") [lit "a"; []; []; lit "b"] [lit "- Gain"]
             [lit "- note: text"] [lit "- Later"]))
     = Lint.Reject Lint.EmptySubject
  /\ Lint.lint_message
       (message_text
          [lit "Subject"; []; Lint.header_context; lit "a"; []; []; lit "b"])
     = Lint.Reject (Lint.MissingHeader Lint.header_enables)
  /\ format_message world_present (lit "Subject") four_entries [lit "Gain"]
       [lit "note: text"] [lit "Later"]
     = Ok (text_with_context [lit "a"; lit "b"]).
Proof. repeat split; vm_compute; reflexivity. Qed.

(** *** Whitespace of the context lines *)

(** C7, amended: the context lines [_split_context_lines] returns are the
    lines of the entries, without the blank ones at either end, each with
    its leading and its trailing whitespace removed: trimming such a line
    again changes nothing, and the formatted message carries these lines. *)
Theorem context_lines_trimmed :
  (forall entries cleaned : list str,
      _split_context_lines entries = Ok cleaned ->
      cleaned = map strip (context_core entries)
      /\ Forall (fun line => strip line = line) cleaned
      /\ (forall line, In line cleaned ->
          exists entry raw,
            In entry entries /\ In raw (splitlines entry) /\ line = strip raw))
  /\ (forall (w : World) (subject : str) (context enables changes deferred : list str)
             (text : str),
         format_message w subject context enables changes deferred = Ok text ->
         exists enable_lines change_lines deferred_lines,
           text = message_text
                    (message_lines (strip subject) (map strip (context_core context))
                       enable_lines change_lines deferred_lines)).
Proof.
  split.
  - intros entries cleaned H.
    apply split_context_lines_valid in H as (_ & _ & Hmap & _).
    split; [exact Hmap|]. split.
    + rewrite Hmap. apply Forall_map, Forall_forall. intros l _. apply strip_idem.
    + intros line Hin. rewrite Hmap in Hin.
      apply in_map_iff in Hin as (x & <- & Hx).
      apply In_context_core in Hx as (entry & raw & He & Hr & ->).
      exists entry, raw. now rewrite strip_rstrip.
  - intros w subject context enables changes deferred text H.
    apply format_message_ok in H
      as (cl & el & hl & dl & _ & Hc & _ & _ & _ & _ & _ & _ & ->).
    apply split_context_lines_valid in Hc as (_ & _ & -> & _).
    eauto.
Qed.

Lemma context_lines_trimmed_witness :
  _split_context_lines [lit "  indented  "] = Ok [lit "indented"]
  /\ [lit "indented"] = map strip (context_core [lit "  indented  "]).
Proof.
  assert (H : _split_context_lines [lit "  indented  "] = Ok [lit "indented"])
    by (vm_compute; reflexivity).
  split; [exact H|].
  exact (proj1 (proj1 context_lines_trimmed [lit "  indented  "] [lit "indented"] H)).
Defined.

(** C7 as stated fails: the leading whitespace of a context line is not kept. *)
Lemma context_leading_whitespace_dropped :
  _split_context_lines [lit "  indented"] = Ok [lit "indented"]
  /\ format_message world_present (lit "Subject") [lit "  indented"] [lit "Gain"]
       [lit "note: text"] [lit "Later"]
     = Ok (text_with_context [lit "indented"]).
Proof. split; vm_compute; reflexivity. Qed.

(** *** The empty message *)

Lemma strip_trailing_blanks_drop (lines : list str) :
  Lint._strip_trailing_blanks (lines ++ [[]]) = Lint._strip_trailing_blanks lines.
Proof.
  unfold Lint._strip_trailing_blanks, drop_while_end.
  now rewrite rev_app_distr.
Qed.

Lemma strip_trailing_blanks_nil (lines : list str) :
  Lint._strip_trailing_blanks lines = [] <-> Forall (fun l => l = []) lines.
Proof.
  unfold Lint._strip_trailing_blanks. rewrite drop_while_end_nil.
  split; intros H; eapply Forall_impl; try exact H; intros l; apply eqb_eq.
Qed.

(** C8, amended: [lint_message] strips the empty lines at the end of the
    input, and only those: a last line that is not empty, whitespace or not,
    stays.  It fails with [EmptyMessage] exactly when no line remains, that
    is when every line of the input is empty. *)
Theorem empty_message_verdict :
  (forall text : str,
      Lint.lint_message text = Lint.Reject Lint.EmptyMessage
      <-> Lint._strip_trailing_blanks (splitlines text) = [])
  /\ (forall lines : list str,
         Lint._strip_trailing_blanks lines = [] <-> Forall (fun l => l = []) lines)
  /\ (forall (lines : list str) (l : str),
         l <> [] -> Lint._strip_trailing_blanks (lines ++ [l]) = lines ++ [l])
  /\ (forall lines : list str,
         Lint._strip_trailing_blanks (lines ++ [[]])
         = Lint._strip_trailing_blanks lines).
Proof.
  split; [|split; [|split]].
  - intros text. unfold Lint.lint_message.
    destruct (Lint._strip_trailing_blanks (splitlines text)) as [|l ls] eqn:E.
    + split; reflexivity.
    + cbn [truthy negb]. split; [|discriminate].
      destruct (negb (truthy (strip (nth 0 (l :: ls) [])))); [discriminate|].
      destruct (_ || _); [discriminate|].
      intros H. exfalso. revert H.
      apply lint_sections_not_empty_message, headers_not_empty_message.
  - exact strip_trailing_blanks_nil.
  - intros lines l. apply strip_trailing_blanks_keep.
  - exact strip_trailing_blanks_drop.
Qed.

Lemma empty_message_verdict_witness :
  Lint._strip_trailing_blanks ([lit "Subject"] ++ [lit " "]) = [lit "Subject"] ++ [lit " "]
  /\ Lint.lint_message [LF; LF] = Lint.Reject Lint.EmptyMessage.
Proof.
  destruct empty_message_verdict as (Hverdict & _ & Hkeep & _).
  split.
  - apply Hkeep. discriminate.
  - apply Hverdict. reflexivity.
Defined.

(** C8 as stated fails: a line of whitespace at the end is not stripped, and
    the input that holds nothing else is rejected for its subject. *)
Lemma whitespace_line_not_stripped :
  Lint._strip_trailing_blanks (splitlines (lit " " ++ [LF])) = [lit " "]
  /\ Lint.lint_message (lit " " ++ [LF]) = Lint.Reject Lint.EmptySubject.
Proof. split; vm_compute; reflexivity. Qed.

(** *** Git out of reach *)

(** C9: when running git raises [OSError], [_is_deleted_in_git] answers
    [false] and raises nothing, so that a path below the root that does not
    exist is reported by [_validate_path] as not found. *)
Theorem git_failure_means_not_deleted (w : World) (r : Path) (path : str) :
  subprocess_run w (git_ls_deleted r path) = RaisesOSError ->
  _is_deleted_in_git w r path = false
  /\ (forall rel,
         r = root w -> rel <> [] -> resolve w path = root w ++ rel ->
         path_exists w (resolve w path) = false ->
         _validate_path w (root w) path = Raise (PathNotFound path)).
Proof.
  intros H.
  assert (Hdel : _is_deleted_in_git w r path = false).
  { unfold _is_deleted_in_git. now rewrite H. }
  split; [exact Hdel|].
  intros rel -> Hrel Hres Hex.
  now rewrite (validate_path_inside w path Hrel Hres), Hex, Hdel.
Qed.

Lemma git_failure_means_not_deleted_witness :
  _is_deleted_in_git world_no_git repo nonexistent_path = false
  /\ _validate_path world_no_git repo nonexistent_path
     = Raise (PathNotFound nonexistent_path).
Proof.
  destruct (@git_failure_means_not_deleted world_no_git repo nonexistent_path
              eq_refl) as [Hdel Hvalidate].
  split; [exact Hdel|].
  apply (Hvalidate [nonexistent_path]); try reflexivity. discriminate.
Defined.

(** *** Rendering of a change bullet *)

(** C10: an accepted change entry is rendered with the bullet line [- ],
    the trimmed text before the first colon of its first line, [: ], and
    the trimmed text after that colon, followed by its continuation lines
    indented by two spaces; the change lines of the message
    [format_message] returns hold this rendering for each change entry.
    The first line [a.py :  fix  bug] is rendered [- a.py: fix  bug]. *)
Theorem change_bullet_rendering :
  (forall (w : World) (item : str) (lines : list str),
      change_entry w item = Ok lines ->
      exists before after conts,
        change_parts item before after conts
        /\ lines = (lit "- " ++ strip before ++ lit ": " ++ strip after)
                   :: map (fun c => lit "  " ++ c) conts)
  /\ (forall (w : World) (subject : str) (context enables changes deferred : list str)
             (text : str),
         format_message w subject context enables changes deferred = Ok text ->
         exists context_lines enable_lines change_lines deferred_lines,
           text = message_text
                    (message_lines (strip subject) context_lines enable_lines
                       change_lines deferred_lines)
           /\ forall item, In item changes ->
              exists before after conts earlier later,
                change_parts item before after conts
                /\ change_lines
                   = earlier
                     ++ rendered_change (strip before) (strip after) conts
                     ++ later)
  /\ change_entry world_present (lit "a.py :  fix  bug") = Ok [lit "- a.py: fix  bug"].
Proof.
  split; [|split].
  - intros w item lines H.
    apply change_entry_rendered in H as (before & after & conts & Hp & _ & _ & _ & ->).
    exists before, after, conts. split; [assumption|reflexivity].
  - intros w subject context enables changes deferred text H.
    apply format_message_ok in H
      as (cl & el & hl & dl & _ & _ & _ & _ & _ & Hh & _ & _ & ->).
    exists cl, el, hl, dl. split; [reflexivity|].
    intros item Hin.
    destruct (change_entries_in _ _ _ Hh Hin) as (blk & earlier & later & Hb & ->).
    apply change_entry_rendered in Hb
      as (before & after & conts & Hp & _ & _ & _ & ->).
    exists before, after, conts, earlier, later. split; [assumption|reflexivity].
  - vm_compute. reflexivity.
Qed.

Lemma change_bullet_rendering_witness :
  exists before after conts,
    change_parts (lit "a.py :  fix  bug") before after conts
    /\ [lit "- a.py: fix  bug"]
       = (lit "- " ++ strip before ++ lit ": " ++ strip after)
         :: map (fun c => lit "  " ++ c) conts.
Proof.
  apply (proj1 change_bullet_rendering world_present).
  vm_compute. reflexivity.
Defined.

(** ** Further properties of the code *)

Import Grammar.

(** *** Trailing empty lines *)

Lemma pop_blanks_spec (rev_trimmed : list str) :
  forall count,
    rev_trimmed
    = repeat [] (snd (Lint.pop_blanks rev_trimmed count) - count)
      ++ fst (Lint.pop_blanks rev_trimmed count)
    /\ count <= snd (Lint.pop_blanks rev_trimmed count)
    /\ fst (Lint.pop_blanks rev_trimmed count)
       = drop_while (fun l => eqb l []) rev_trimmed.
Proof.
  induction rev_trimmed as [|l r IH]; intros count; cbn [Lint.pop_blanks drop_while].
  - cbn [fst snd]. rewrite Nat.sub_diag. auto.
  - destruct (eqb l []) eqn:E.
    + destruct (IH (S count)) as (Hr & Hle & Hd).
      apply eqb_eq in E. subst l. repeat split; [|lia|exact Hd].
      replace (snd (Lint.pop_blanks r (S count)) - count)
        with (S (snd (Lint.pop_blanks r (S count)) - S count)) by lia.
      cbn [repeat app]. now rewrite <- Hr.
    + cbn [fst snd]. rewrite Nat.sub_diag. auto.
Qed.

Lemma rev_repeat (A : Type) (x : A) (n : nat) : rev (repeat x n) = repeat x n.
Proof.
  induction n as [|n IH]; [reflexivity|].
  cbn [repeat rev]. rewrite IH. symmetry. apply repeat_cons.
Qed.

Lemma strip_trailing_section_blanks_spec_parts (lines : list str) :
  lines
  = fst (Lint._strip_trailing_section_blanks lines)
    ++ repeat [] (snd (Lint._strip_trailing_section_blanks lines))
  /\ fst (Lint._strip_trailing_section_blanks lines) = Lint._strip_trailing_blanks lines.
Proof.
  unfold Lint._strip_trailing_section_blanks.
  destruct (pop_blanks_spec (rev lines) 0) as (Hr & _ & Hd).
  destruct (Lint.pop_blanks (rev lines) 0) as [r c]. cbn [fst snd] in *.
  rewrite Nat.sub_0_r in Hr. split.
  - rewrite <- (rev_involutive lines), Hr, rev_app_distr, rev_repeat. reflexivity.
  - unfold Lint._strip_trailing_blanks, drop_while_end. now rewrite Hd.
Qed.

(** X1: [_strip_trailing_section_blanks] splits a section into what
    [_strip_trailing_blanks] keeps of it and the empty lines at its end,
    which it counts. *)
Theorem strip_trailing_section_blanks_spec (lines : list str) :
  lines
  = fst (Lint._strip_trailing_section_blanks lines)
    ++ repeat [] (snd (Lint._strip_trailing_section_blanks lines))
  /\ fst (Lint._strip_trailing_section_blanks lines) = Lint._strip_trailing_blanks lines
  /\ length lines
     = length (Lint._strip_trailing_blanks lines)
       + snd (Lint._strip_trailing_section_blanks lines).
Proof.
  destruct (strip_trailing_section_blanks_spec_parts lines) as [Hlines Hfst].
  split; [exact Hlines|]. split; [exact Hfst|].
  rewrite <- Hfst. rewrite Hlines at 1. now rewrite length_app, repeat_length.
Qed.

Lemma splitlines_line_feed_aux (n : nat) (s : str) :
  length s <= n ->
  splitlines (s ++ [LF]) = splitlines s
  \/ splitlines (s ++ [LF]) = splitlines s ++ [[]].
Proof.
  revert s; induction n as [|n IH]; intros s Hlen.
  - destruct s; [now right|simpl in Hlen; lia].
  - destruct s as [|c r]; [now right|]. simpl in Hlen.
    rewrite <- app_comm_cons. cbn [splitlines].
    destruct (is_linebreak c) eqn:Ec.
    + destruct r as [|c' r'].
      * cbn [app]. change (LF =? LF)%N with true. rewrite andb_true_r.
        destruct (c =? CR)%N; [now left|now right].
      * rewrite <- app_comm_cons.
        destruct ((c =? CR)%N && (c' =? LF)%N).
        -- destruct (IH r') as [H|H]; [simpl in Hlen; lia| |];
             rewrite H; [now left|now right].
        -- rewrite app_comm_cons.
           destruct (IH (c' :: r')) as [H|H]; [lia| |];
             rewrite H; [now left|now right].
    + destruct r as [|c' r'].
      * now left.
      * destruct (IH (c' :: r')) as [H|H]; [lia| |]; rewrite H; [now left|].
        destruct (splitlines (c' :: r')); [now left|now right].
Qed.

Lemma strip_trailing_blanks_line_feed (s : str) :
  Lint._strip_trailing_blanks (splitlines (s ++ [LF]))
  = Lint._strip_trailing_blanks (splitlines s).
Proof.
  destruct (splitlines_line_feed_aux (n := length s) s) as [H|H];
    [lia| |]; rewrite H; [reflexivity|apply strip_trailing_blanks_drop].
Qed.

(** X2: line feeds added at the end of a text do not change the verdict of
    [lint_message]. *)
Theorem lint_message_trailing_line_feeds (text : str) (n : nat) :
  Lint.lint_message (text ++ repeat LF n) = Lint.lint_message text.
Proof.
  revert text; induction n as [|n IH]; intros text.
  - cbn [repeat]. now rewrite app_nil_r.
  - cbn [repeat]. change (LF :: repeat LF n) with ([LF] ++ repeat LF n).
    rewrite app_assoc, IH. unfold Lint.lint_message.
    now rewrite strip_trailing_blanks_line_feed.
Qed.

(** *** The rules of the Context section *)

Lemma context_scan_spaced (lines : list str) :
  forall blank_run non_empty,
    adjacent_blanks lines = false ->
    blank_run = 0 \/ existsb blank (firstn 1 lines) = false ->
    Lint.context_scan lines blank_run non_empty
    = Ok (non_empty + count_text lines).
Proof.
  unfold count_text.
  induction lines as [|a rest IH]; intros br ne Hadj Hbr.
  - cbn. now rewrite Nat.add_0_r.
  - rewrite context_scan_cons. cbn [filter].
    assert (Hrest : adjacent_blanks rest = false).
    { destruct rest; [reflexivity|]. rewrite adjacent_blanks_cons in Hadj.
      now apply orb_false_iff in Hadj. }
    rewrite truthy_strip. destruct (has_text a) eqn:Ea.
    + rewrite IH; [|exact Hrest|now left]. cbn [length]. f_equal. lia.
    + assert (Hb : blank a = true) by now rewrite blank_has_text, Ea.
      assert (br = 0) as -> by (destruct Hbr as [?|H]; [assumption|];
        cbn in H; rewrite Hb in H; discriminate).
      cbn [Nat.ltb Nat.leb]. apply IH; [exact Hrest|].
      right. destruct rest as [|b r]; [reflexivity|].
      rewrite adjacent_blanks_cons in Hadj. apply orb_false_iff in Hadj as [H _].
      rewrite Hb in H. cbn [andb] in H. cbn [firstn existsb]. now rewrite H.
Qed.

Lemma validate_context_section_outcome (lines : list str) :
  Lint._validate_context_section lines
  = if negb (truthy lines) then Some Lint.ContextNoLines
    else if eqb (nth 0 lines []) [] || eqb (last lines []) []
    then Some Lint.ContextEdgeBlank
    else if adjacent_blanks lines then Some Lint.ContextConsecutiveBlanks
    else if Lint.MAX_CONTEXT_LINES <? count_text lines then Some Lint.ContextTooLong
    else None.
Proof.
  unfold Lint._validate_context_section.
  destruct (negb (truthy lines)); [reflexivity|].
  destruct (eqb (nth 0 lines []) [] || eqb (last lines []) []); [reflexivity|].
  destruct (adjacent_blanks lines) eqn:Ea.
  - now rewrite context_scan_adjacent.
  - now rewrite context_scan_spaced by (assumption || now left).
Qed.

Lemma validate_context_section_none (lines : list str) :
  Lint._validate_context_section lines = None ->
  lines <> [] /\ nth 0 lines [] <> [] /\ last lines [] <> []
  /\ adjacent_blanks lines = false
  /\ count_text lines <= Lint.MAX_CONTEXT_LINES.
Proof.
  rewrite validate_context_section_outcome.
  destruct lines as [|l ls]; [discriminate|]. cbn [truthy negb].
  destruct (eqb (nth 0 (l :: ls) []) []) eqn:Ef; [discriminate|].
  destruct (eqb (last (l :: ls) []) []) eqn:El; [discriminate|]. cbn [orb].
  destruct (adjacent_blanks (l :: ls)); [discriminate|].
  destruct (Lint.MAX_CONTEXT_LINES <? count_text (l :: ls)) eqn:E; [discriminate|].
  intros _. apply eqb_neq in Ef, El. apply Nat.ltb_ge in E.
  repeat split; (assumption || discriminate).
Qed.

(** X3: [_validate_context_section] finds no fault exactly in the bodies
    that are not empty, whose first and last lines are not empty, that hold
    no two neighbouring blank lines and at most 8 lines with text; a lower
    bound on the lines with text is not among its rules. *)
Theorem validate_context_section_spec (lines : list str) :
  Lint._validate_context_section lines = None
  <-> lines <> [] /\ nth 0 lines [] <> [] /\ last lines [] <> []
      /\ adjacent_blanks lines = false
      /\ count_text lines <= Lint.MAX_CONTEXT_LINES.
Proof.
  split; [apply validate_context_section_none|].
  intros (Hne & Hfirst & Hlast & Hadj & Hcount).
  rewrite validate_context_section_outcome.
  destruct lines as [|l ls]; [congruence|]. cbn [truthy negb].
  apply eqb_neq in Hfirst, Hlast. rewrite Hfirst, Hlast, Hadj. cbn [orb].
  apply Nat.ltb_ge in Hcount. now rewrite Hcount.
Qed.

Lemma validate_context_section_spec_witness :
  Lint._validate_context_section [lit " "] = None.
Proof.
  apply validate_context_section_spec.
  repeat split; try discriminate. unfold Lint.MAX_CONTEXT_LINES. cbn. lia.
Defined.

(** *** The rules of the bullet sections *)

Lemma bullet_scan_cons (section_label : str) (rc : bool) (line : str)
    (rest : list str) (n : nat) (b : bool) :
  (bullet_ok rc line = true ->
   Lint.bullet_scan section_label rc (line :: rest) n b
   = Lint.bullet_scan section_label rc rest (S n) true)
  /\ (bullet_ok rc line = false -> continuation_ok line = true -> b = true ->
      Lint.bullet_scan section_label rc (line :: rest) n b
      = Lint.bullet_scan section_label rc rest n true)
  /\ (bullet_ok rc line = false -> continuation_ok line = false \/ b = false ->
      exists e, Lint.bullet_scan section_label rc (line :: rest) n b = Raise e).
Proof.
  unfold bullet_ok, continuation_ok. cbn [Lint.bullet_scan].
  destruct (eqb line []) eqn:Enil.
  { apply eqb_eq in Enil. subst line. cbn. repeat split; try discriminate. eauto. }
  destruct (startswith (lit "- ") line); cbn [andb negb].
  - destruct (truthy (strip (skipn 2 line))); cbn [andb negb].
    2:{ repeat split; try discriminate; eauto. }
    destruct rc; cbn [andb negb orb].
    + destruct (contains (lit ":") (skipn 2 line)); cbn [andb negb].
      2:{ repeat split; try discriminate; eauto. }
      destruct (truthy (strip (nth 0 (split1 (lit ":") (skipn 2 line)) [])));
        cbn [andb negb orb].
      2:{ repeat split; try discriminate; eauto. }
      destruct (truthy (strip (nth 1 (split1 (lit ":") (skipn 2 line)) [])));
        cbn [andb negb orb]; repeat split; try discriminate; eauto.
    + repeat split; try discriminate; eauto.
  - destruct (startswith (lit "  ") line || startswith [9%N] line); cbn [andb].
    2:{ repeat split; try discriminate; eauto. }
    destruct (truthy (strip line)); cbn [negb].
    + repeat split; try discriminate.
      * now intros _ _ ->.
      * intros _ [H| ->]; [discriminate|cbn [negb]; eauto].
    + repeat split; try discriminate. intros _ _. destruct b; cbn [negb]; eauto.
Qed.

Lemma bullet_scan_lines_ok (section_label : str) (rc : bool) (lines : list str) :
  forallb (fun l => bullet_ok rc l || continuation_ok l) lines = true ->
  forall n, exists m,
    Lint.bullet_scan section_label rc lines n true = Ok m /\ n <= m.
Proof.
  induction lines as [|l rest IH]; intros Hall n.
  - exists n. split; [reflexivity|lia].
  - cbn [forallb] in Hall. apply andb_true_iff in Hall as [Hl Hrest].
    destruct (bullet_scan_cons section_label rc l rest n true) as (Hb & Hc & _).
    destruct (bullet_ok rc l) eqn:E.
    + rewrite (Hb eq_refl). destruct (IH Hrest (S n)) as (m & -> & Hle).
      exists m. split; [reflexivity|lia].
    + cbn [orb] in Hl. rewrite (Hc eq_refl Hl eq_refl). now apply IH.
Qed.

Lemma bullet_scan_ok_lines (section_label : str) (rc : bool) (lines : list str) :
  forall n b m,
    Lint.bullet_scan section_label rc lines n b = Ok m ->
    forallb (fun l => bullet_ok rc l || continuation_ok l) lines = true
    /\ (b = false -> lines = [] \/ bullet_ok rc (nth 0 lines []) = true).
Proof.
  induction lines as [|l rest IH]; intros n b m H; [split; auto|].
  destruct (bullet_scan_cons section_label rc l rest n b) as (Hb & Hc & He).
  cbn [forallb nth].
  destruct (bullet_ok rc l) eqn:E.
  - rewrite (Hb eq_refl) in H. apply IH in H as [H _]. rewrite H. auto.
  - destruct (continuation_ok l) eqn:Ec.
    + destruct b.
      * rewrite (Hc eq_refl eq_refl eq_refl) in H. apply IH in H as [H _].
        rewrite H. split; [reflexivity|discriminate].
      * destruct (He eq_refl (or_intror eq_refl)) as (e & He'). congruence.
    + destruct (He eq_refl (or_introl eq_refl)) as (e & He'). congruence.
Qed.

Lemma validate_bullet_section_none (lines : list str) (section_label : str)
    (rc : bool) :
  Lint._validate_bullet_section lines section_label rc = None ->
  exists first rest,
    lines = first :: rest /\ bullet_ok rc first = true
    /\ forallb (fun l => bullet_ok rc l || continuation_ok l) rest = true.
Proof.
  unfold Lint._validate_bullet_section.
  destruct lines as [|l rest]; [discriminate|]. cbn [truthy negb].
  destruct (Lint.bullet_scan section_label rc (l :: rest) 0 false) as [m|e] eqn:E;
    [|discriminate].
  intros _. apply bullet_scan_ok_lines in E as [Hall Hfirst].
  destruct (Hfirst eq_refl) as [H|H]; [discriminate|]. cbn [nth] in H.
  cbn [forallb] in Hall. apply andb_true_iff in Hall as [_ Hall].
  exists l, rest. auto.
Qed.

(** X4: [_validate_bullet_section] finds no fault exactly in the bodies
    that open with a bullet line and go on with bullet lines and
    continuation lines; the section label plays no part. *)
Theorem validate_bullet_section_spec (lines : list str) (section_label : str)
    (rc : bool) :
  Lint._validate_bullet_section lines section_label rc = None
  <-> exists first rest,
        lines = first :: rest /\ bullet_ok rc first = true
        /\ forallb (fun l => bullet_ok rc l || continuation_ok l) rest = true.
Proof.
  split; [apply validate_bullet_section_none|].
  intros (f & r & -> & Hf & Hall). unfold Lint._validate_bullet_section.
  cbn [truthy negb].
  destruct (bullet_scan_cons section_label rc f r 0 false) as (Hb & _ & _).
  rewrite (Hb Hf).
  destruct (bullet_scan_lines_ok section_label rc r Hall 1) as (m & -> & Hle).
  destruct m; [lia|reflexivity].
Qed.

Lemma validate_bullet_section_spec_witness :
  Lint._validate_bullet_section
    [lit "- path: text"; 9%N :: lit "more"; lit "- other: text"] (lit "Changes") true
  = None.
Proof.
  apply validate_bullet_section_spec.
  exists (lit "- path: text"), [9%N :: lit "more"; lit "- other: text"].
  repeat split.
Defined.

(** *** The messages the validator accepts *)

Lemma index_at_found (x : str) (l : list str) :
  forall pos i,
    index_at eqb x l pos = Some i ->
    exists before after,
      l = before ++ x :: after /\ ~ In x before /\ i = pos + length before.
Proof.
  induction l as [|y l IH]; intros pos i; cbn [index_at]; [discriminate|].
  destruct (eqb y x) eqn:E.
  - intros [= <-]. apply eqb_eq in E. subst y.
    exists [], l. cbn. repeat split; auto.
  - intros H. apply IH in H as (before & after & -> & Hn & ->).
    exists (y :: before), after. cbn [app length]. repeat split; [|lia].
    intros [H|H]; [|auto]. subst. now rewrite eqb_refl in E.
Qed.

Lemma skipn_nth_cons (l : list str) :
  forall idx, idx < length l -> skipn idx l = nth idx l [] :: skipn (S idx) l.
Proof.
  induction l as [|y l IH]; intros idx H; [simpl in H; lia|].
  destruct idx; [reflexivity|]. simpl in H. cbn [skipn nth]. rewrite IH by lia.
  reflexivity.
Qed.

Lemma lint_sections_accepts_next (header : str)
    (validator : list str -> option Lint.LintError) (next_header : str)
    (next_validator : list str -> option Lint.LintError)
    (later : list (str * (list str -> option Lint.LintError)))
    (lines : list str) (idx : nat) :
  Lint.lint_sections ((header, validator) :: (next_header, next_validator) :: later)
    lines idx = Lint.Accept ->
  exists body next_idx,
    skipn idx lines = header :: body ++ [] :: skipn next_idx lines
    /\ ~ In next_header body /\ validator body = None
    /\ Lint.lint_sections ((next_header, next_validator) :: later) lines next_idx
       = Lint.Accept.
Proof.
  rewrite lint_sections_unfold. cbv zeta.
  destruct (length lines <=? idx) eqn:Elen; [discriminate|]. cbn [orb].
  destruct (eqb (nth idx lines []) header) eqn:Eh; [|discriminate]. cbn [negb].
  apply Nat.leb_gt in Elen. apply eqb_eq in Eh.
  unfold index_from.
  destruct (index_at eqb next_header (skipn (S idx) lines) (S idx)) as [next_idx|] eqn:Ei;
    [|discriminate].
  apply index_at_found in Ei as (before & after & Hskip & Hnot & ->).
  unfold slice. replace (S idx + length before - S idx) with (length before) by lia.
  rewrite Hskip, firstn_app, firstn_all, Nat.sub_diag. cbn [firstn].
  rewrite app_nil_r.
  destruct (strip_trailing_section_blanks_spec_parts before) as (Hsplit & _).
  destruct (Lint._strip_trailing_section_blanks before) as [body blanks].
  cbn [fst snd] in Hsplit.
  destruct (blanks =? 1) eqn:Eb; [|discriminate]. cbn [negb].
  apply Nat.eqb_eq in Eb. subst blanks. cbn [repeat] in Hsplit.
  destruct (negb (truthy body)); [discriminate|].
  destruct (validator body) eqn:Ev; [discriminate|].
  intros H. exists body, (S idx + length before).
  split; [|split; [|split; [exact Ev|exact H]]].
  - rewrite (skipn_nth_cons lines Elen), Eh, Hskip. f_equal.
    replace (S idx + length before) with (length before + S idx) by lia.
    rewrite <- skipn_skipn, Hskip, skipn_app, skipn_all, Nat.sub_diag.
    cbn [skipn app]. rewrite Hsplit at 1. now rewrite <- app_assoc.
  - intros Hin. apply Hnot. rewrite Hsplit. apply in_or_app. now left.
Qed.

Lemma lint_sections_accepts_last (header : str)
    (validator : list str -> option Lint.LintError) (lines : list str) (idx : nat) :
  Lint.lint_sections [(header, validator)] lines idx = Lint.Accept ->
  exists body,
    skipn idx lines = header :: body /\ body <> [] /\ validator body = None.
Proof.
  rewrite lint_sections_unfold. cbv zeta.
  destruct (length lines <=? idx) eqn:Elen; [discriminate|]. cbn [orb].
  destruct (eqb (nth idx lines []) header) eqn:Eh; [|discriminate]. cbn [negb].
  apply Nat.leb_gt in Elen. apply eqb_eq in Eh.
  destruct (skipn (S idx) lines) as [|l ls] eqn:Es; [discriminate|].
  cbn [truthy negb].
  destruct (validator (l :: ls)) eqn:Ev; [discriminate|]. intros _.
  exists (l :: ls). rewrite (skipn_nth_cons lines Elen), Eh, Es.
  repeat split; [discriminate|exact Ev].
Qed.

Lemma ok_line_not_header (rc : bool) (line : str) :
  bullet_ok rc line || continuation_ok line = true ->
  line <> [] /\ line <> Lint.header_changes /\ line <> Lint.header_deferred.
Proof.
  intros H. repeat split; intros ->; vm_compute in H; discriminate.
Qed.

Lemma valid_bullets_ends (lines : list str) (section_label : str) (rc : bool) :
  Lint._validate_bullet_section lines section_label rc = None ->
  exists body last_line,
    lines = body ++ [last_line] /\ last_line <> []
    /\ ~ In Lint.header_changes lines /\ ~ In Lint.header_deferred lines.
Proof.
  intros H. apply validate_bullet_section_none in H as (first & rest & -> & Hf & Hr).
  assert (Hall : forall l, In l (first :: rest) ->
                 bullet_ok rc l || continuation_ok l = true).
  { intros l [<-|Hl]; [now rewrite Hf|].
    rewrite forallb_forall in Hr. now apply Hr. }
  assert (Hne : first :: rest <> []) by discriminate.
  destruct (list_ends Hne) as (body & l & E). rewrite E in *.
  exists body, l. repeat split.
  - apply (ok_line_not_header rc), Hall, in_or_app. right. now left.
  - intros Hin. now apply Hall, ok_line_not_header in Hin.
  - intros Hin. now apply Hall, ok_line_not_header in Hin.
Qed.

(** X5: [lint_message] accepts a text exactly when its lines, without the
    empty ones at the end, are a subject with text, an empty line, and the
    four sections in their order, each header followed by a body that its
    validator finds no fault with, each body but the last followed by one
    empty line, and the Context body without a line [What this enables:]. *)
Theorem lint_message_accepts_iff (text : str) :
  Lint.lint_message text = Lint.Accept
  <-> exists subject context_lines enable_lines change_lines deferred_lines,
        Lint._strip_trailing_blanks (splitlines text)
        = message_lines subject context_lines enable_lines change_lines
            deferred_lines
        /\ has_text subject = true
        /\ Lint._validate_context_section context_lines = None
        /\ ~ In Lint.header_enables context_lines
        /\ Lint._validate_bullet_section enable_lines (lit "What this enables") false
           = None
        /\ Lint._validate_bullet_section change_lines (lit "Changes") true = None
        /\ Lint._validate_bullet_section deferred_lines (lit "Deferred") false = None.
Proof.
  unfold Lint.lint_message.
  set (lines := Lint._strip_trailing_blanks (splitlines text)). clearbody lines.
  split.
  - destruct lines as [|subject [|l1 [|l2 rest]]]; try discriminate.
    + cbn [truthy negb nth length Nat.ltb Nat.leb orb].
      destruct (negb (truthy (strip subject))); discriminate.
    + cbn [truthy negb nth length Nat.ltb Nat.leb orb].
      destruct (negb (truthy (strip subject))); discriminate.
    + cbn [truthy negb nth length Nat.ltb Nat.leb orb].
      destruct (truthy (strip subject)) eqn:Es; [|discriminate]. cbn [negb].
      destruct (eqb l1 []) eqn:E1; [|discriminate]. cbn [negb].
      apply eqb_eq in E1. subst l1. rewrite truthy_strip in Es.
      unfold Lint.headers. intros H.
      apply lint_sections_accepts_next in H as (cb & n1 & H2 & Hnot & Vc & H).
      apply lint_sections_accepts_next in H as (eb & n2 & Hn1 & _ & Ve & H).
      apply lint_sections_accepts_next in H as (hb & n3 & Hn2 & _ & Vh & H).
      apply lint_sections_accepts_last in H as (db & Hn3 & _ & Vd).
      exists subject, cb, eb, hb, db.
      repeat split; try assumption.
      cbn [skipn] in H2. rewrite H2, Hn1, Hn2, Hn3. reflexivity.
  - intros (subject & cl & el & hl & dl & -> & Hs & Vc & Hnot & Ve & Vh & Vd).
    destruct (validate_context_section_none _ Vc) as (Hc0 & _ & Hclast & _).
    destruct (list_ends Hc0) as (cb & cl' & ->). rewrite last_last in Hclast.
    destruct (valid_bullets_ends _ _ _ Ve) as (eb & el' & -> & Hel & Hen1 & _).
    destruct (valid_bullets_ends _ _ _ Vh) as (hb & hl' & -> & Hhl & _ & Hch1).
    destruct (valid_bullets_ends _ _ _ Vd) as (db & dl' & -> & Hdl & _ & _).
    unfold message_lines at 1 2 3. cbn [app truthy negb nth length].
    rewrite truthy_strip, Hs. cbn [negb Nat.ltb Nat.leb orb eqb].
    unfold Lint.headers, message_lines.
    change ([subject; []; Lint.header_context] ++ (cb ++ [cl'])
            ++ [[]; Lint.header_enables] ++ (eb ++ [el'])
            ++ [[]; Lint.header_changes] ++ (hb ++ [hl'])
            ++ [[]; Lint.header_deferred] ++ db ++ [dl'])
      with ([subject; []] ++ Lint.header_context :: (cb ++ [cl'])
            ++ [] :: Lint.header_enables :: ((eb ++ [el'])
            ++ [] :: Lint.header_changes :: ((hb ++ [hl'])
            ++ [] :: Lint.header_deferred :: (db ++ [dl'])))).
    change 2 with (length [subject; @nil N]).
    rewrite lint_sections_step; try assumption; [|discriminate].
    rewrite lint_sections_step; try assumption; [|discriminate].
    rewrite lint_sections_step; try assumption; [|discriminate].
    now apply lint_sections_last.
Qed.

(** *** Entries split into lines *)

Lemma strip_last_not_space (s r : str) (c : char) :
  strip s = r ++ [c] -> isspace c = false.
Proof. unfold strip, rstrip. apply drop_while_end_last. Qed.

Lemma startswith_marker (s : str) :
  startswith (lit "- ") s = true -> s = 45%N :: 32%N :: skipn 2 s.
Proof.
  change (lit "- ") with [45%N; 32%N].
  destruct s as [|a [|b t]]; cbn [startswith skipn]; try discriminate.
  - now rewrite andb_false_r.
  - intros H. apply andb_true_iff in H as [Ha H].
    apply andb_true_iff in H as [Hb _].
    apply N.eqb_eq in Ha, Hb. now subst.
Qed.

Lemma unmarked_has_text (x : str) :
  has_text x = true -> has_text (unmarked (strip x)) = true.
Proof.
  intros Hx. unfold unmarked.
  destruct (startswith (lit "- ") (strip x)) eqn:E;
    [|now rewrite has_text_strip].
  rewrite has_text_strip. apply startswith_marker in E.
  destruct (skipn 2 (strip x)) as [|c t] eqn:Et.
  - apply (strip_last_not_space x [45%N]) in E. discriminate.
  - assert (Hne : c :: t <> []) by discriminate.
    destruct (list_ends Hne) as (r & z & Hz). rewrite Hz in *.
    assert (Hlast : strip x = (45%N :: 32%N :: r) ++ [z]) by (rewrite E at 1; reflexivity).
    apply strip_last_not_space in Hlast.
    rewrite has_text_app. cbn. rewrite Hlast. now rewrite orb_true_r.
Qed.

Lemma item_continuations_spec (label : str) (lines : list str) :
  item_continuations label lines
  = if existsb blank lines then Raise (BlankLineInBullet label)
    else Ok (map strip lines).
Proof.
  induction lines as [|l rest IH]; [reflexivity|].
  cbn [item_continuations existsb map].
  destruct (blank l); cbn [negb orb]; [reflexivity|].
  rewrite IH. now destruct (existsb blank rest).
Qed.

Lemma item_core_first (item x : str) (rest : list str) :
  item_core item = x :: rest -> has_text x = true.
Proof.
  unfold item_core. rewrite <- drop_while_drop_while_end. intros H.
  apply drop_while_head in H. rewrite blank_has_text in H.
  now apply negb_false_iff.
Qed.

Lemma split_item_lines_outcome (item label : str) :
  _split_item_lines item label
  = match item_core item with
    | [] => Raise (EmptyBulletEntry label)
    | x :: rest =>
        if existsb blank rest then Raise (BlankLineInBullet label)
        else Ok (unmarked (strip x) :: map strip rest)
    end.
Proof.
  unfold _split_item_lines. fold (item_core item).
  destruct (item_core item) as [|x rest] eqn:E; [reflexivity|].
  cbn [truthy nth tl]. fold (unmarked (strip x)).
  pose proof (unmarked_has_text x (item_core_first _ E)) as Hu.
  destruct (unmarked (strip x)) as [|c t] eqn:Eu; [discriminate|].
  cbn [truthy]. rewrite item_continuations_spec.
  now destruct (existsb blank rest).
Qed.

(** X6: [_split_item_lines] raises [EmptyBulletEntry] exactly for an entry
    without a line that has text, and [BlankLineInBullet] exactly for one
    with a blank line after its first line with text and before its last;
    any other entry gives its first line, trimmed and without one bullet
    marker, and its further lines, trimmed.  The test of the first line for
    emptiness after the marker is removed never fires. *)
Theorem split_item_lines_spec (item label : str) :
  (_split_item_lines item label = Raise (EmptyBulletEntry label)
   <-> item_core item = [])
  /\ (_split_item_lines item label = Raise (BlankLineInBullet label)
      <-> exists x rest, item_core item = x :: rest /\ existsb blank rest = true)
  /\ (forall item_lines,
         _split_item_lines item label = Ok item_lines
         <-> exists x rest,
               item_core item = x :: rest /\ existsb blank rest = false
               /\ item_lines = unmarked (strip x) :: map strip rest).
Proof.
  rewrite split_item_lines_outcome.
  destruct (item_core item) as [|x rest].
  - repeat split; try discriminate; try reflexivity.
    + intros (? & ? & H & _). discriminate.
    + intros (? & ? & H & _). discriminate.
  - destruct (existsb blank rest) eqn:Eb.
    + repeat split; try discriminate; eauto.
      intros (? & ? & [= <- <-] & H & _). congruence.
    + repeat split; try discriminate.
      * intros (? & ? & [= <- <-] & H). congruence.
      * intros H. apply Ok_inj in H. eauto.
      * intros (? & ? & [= <- <-] & _ & ->). reflexivity.
Qed.

Lemma one_line_unmarked (x : str) : one_line x -> one_line (unmarked (strip x)).
Proof.
  intros Hx. unfold unmarked.
  destruct (startswith (lit "- ") (strip x)); [|now apply Forall_strip].
  apply Forall_strip.
  pose proof (Forall_strip Hx) as Hs.
  rewrite <- (firstn_skipn 2 (strip x)) in Hs.
  now apply Forall_app in Hs.
Qed.

Lemma strip_unmarked (x : str) : strip (unmarked (strip x)) = unmarked (strip x).
Proof.
  unfold unmarked. destruct (startswith (lit "- ") (strip x)); apply strip_idem.
Qed.

Lemma split_item_lines_parts (item label : str) (item_lines : list str) :
  _split_item_lines item label = Ok item_lines ->
  exists x rest,
    item_core item = x :: rest /\ existsb blank rest = false
    /\ item_lines = unmarked (strip x) :: map strip rest.
Proof.
  rewrite split_item_lines_outcome.
  destruct (item_core item) as [|x rest] eqn:E; [discriminate|].
  destruct (existsb blank rest) eqn:Eb; [discriminate|].
  intros H. apply Ok_inj in H. subst item_lines. eauto.
Qed.

Lemma split_item_lines_fixed (item label : str) (item_lines : list str) :
  _split_item_lines item label = Ok item_lines ->
  item_lines <> []
  /\ Forall (fun line => strip line = line /\ has_text line = true /\ one_line line)
       item_lines.
Proof.
  intros H. apply split_item_lines_parts in H as (x & rest & E & Eb & ->).
  split; [discriminate|].
  assert (Hone : Forall one_line (x :: rest)).
  { rewrite <- E. apply Forall_drop_while_end, Forall_drop_while, splitlines_one_line. }
  inversion Hone as [|? ? Hx Hrest]; subst.
  constructor.
  - repeat split.
    + apply strip_unmarked.
    + apply unmarked_has_text. eapply item_core_first, E.
    + now apply one_line_unmarked.
  - apply Forall_map, Forall_forall. intros l Hl. repeat split.
    + apply strip_idem.
    + rewrite has_text_strip.
      assert (Hb : blank l = false).
      { destruct (blank l) eqn:El; [|reflexivity].
        assert (existsb blank rest = true)
          by (apply existsb_exists; eauto). congruence. }
      rewrite blank_has_text in Hb. now apply negb_false_iff.
    + rewrite Forall_forall in Hrest. now apply Forall_strip, Hrest.
Qed.

(** X7: every line [_split_item_lines] returns is trimmed, has text and
    holds no line boundary, and there is at least one; rendered by
    [_format_bullet_lines], they are a body in which
    [_validate_bullet_section] finds no fault. *)
Theorem split_item_lines_trimmed (item label : str) (item_lines : list str) :
  _split_item_lines item label = Ok item_lines ->
  item_lines <> []
  /\ Forall (fun line => strip line = line /\ has_text line = true /\ one_line line)
       item_lines
  /\ forall section_label,
       Lint._validate_bullet_section
         (_format_bullet_lines item_lines default_indent) section_label false
       = None.
Proof.
  intros H. destruct (split_item_lines_fixed _ _ H) as [Hne Hall].
  split; [exact Hne|]. split; [exact Hall|]. intros section_label.
  destruct item_lines as [|first conts]; [congruence|].
  rewrite format_bullet_lines_cons.
  inversion Hall as [|? ? (_ & Hf & _) Hconts]; subst.
  apply validate_bullet_body; [|discriminate].
  rewrite <- (app_nil_r (_ :: _)). constructor; [|constructor].
  constructor; [exact Hf|discriminate|].
  eapply Forall_impl; [|exact Hconts]. now intros c (_ & Hc & _).
Qed.

Lemma split_item_lines_trimmed_witness :
  [lit "first"; lit "second"] <> []
  /\ Forall (fun line => strip line = line /\ has_text line = true /\ one_line line)
       [lit "first"; lit "second"]
  /\ forall section_label,
       Lint._validate_bullet_section
         (_format_bullet_lines [lit "first"; lit "second"] default_indent)
         section_label false
       = None.
Proof.
  apply (@split_item_lines_trimmed
           ([LF] ++ lit "-   first  " ++ [LF] ++ lit "  second" ++ [LF; LF])
           (lit "--enable entry")).
  vm_compute. reflexivity.
Defined.

(** *** Blank lines around the context *)

Lemma drop_while_blank_prefix (A : Type) (p : A -> bool) (pre l : list A) :
  forallb p pre = true -> drop_while p (pre ++ l) = drop_while p l.
Proof.
  induction pre as [|x pre IH]; [reflexivity|]. cbn [forallb app drop_while].
  intros H. apply andb_true_iff in H as [Hx Hpre]. rewrite Hx. now apply IH.
Qed.

Lemma drop_while_end_blank_suffix (A : Type) (p : A -> bool) (l post : list A) :
  forallb p post = true -> drop_while_end p (l ++ post) = drop_while_end p l.
Proof.
  intros H. unfold drop_while_end. rewrite rev_app_distr.
  rewrite drop_while_blank_prefix; [reflexivity|].
  rewrite forallb_forall in *. intros x Hx. apply H. now apply in_rev.
Qed.

Lemma blank_rstrip (line : str) : blank (rstrip line) = blank line.
Proof. unfold blank. now rewrite strip_rstrip. Qed.

Lemma context_raw_lines_blank (entries : list str) :
  forallb blank_entry entries = true ->
  forallb blank (context_raw_lines entries) = true.
Proof.
  unfold context_raw_lines. induction entries as [|e es IH]; [reflexivity|].
  cbn [forallb flat_map]. intros H. apply andb_true_iff in H as [He Hes].
  rewrite forallb_app, (IH Hes), andb_true_r.
  unfold blank_entry in He. rewrite forallb_forall in *.
  intros l Hl. apply in_map_iff in Hl as (raw & <- & Hraw).
  rewrite blank_rstrip. now apply He.
Qed.

Lemma context_core_padded (before entries after : list str) :
  forallb blank_entry before = true -> forallb blank_entry after = true ->
  context_core (before ++ entries ++ after) = context_core entries.
Proof.
  intros Hb Ha. unfold context_core, context_raw_lines.
  rewrite !flat_map_app.
  rewrite drop_while_blank_prefix by now apply context_raw_lines_blank.
  rewrite <- !drop_while_drop_while_end.
  rewrite drop_while_end_blank_suffix by now apply context_raw_lines_blank.
  reflexivity.
Qed.

(** X8: context entries that hold blank lines only, put before and after the
    others, change nothing: [_split_context_lines] returns or raises the
    same, and so does [format_message] as long as there is an entry at
    all. *)
Theorem blank_context_entries_ignored (before entries after : list str) :
  forallb blank_entry before = true -> forallb blank_entry after = true ->
  _split_context_lines (before ++ entries ++ after) = _split_context_lines entries
  /\ (entries <> [] ->
      forall (w : World) (subject : str) (enables changes deferred : list str),
        format_message w subject (before ++ entries ++ after) enables changes deferred
        = format_message w subject entries enables changes deferred).
Proof.
  intros Hb Ha.
  assert (Hsplit : _split_context_lines (before ++ entries ++ after)
                   = _split_context_lines entries).
  { unfold _split_context_lines. fold (context_core (before ++ entries ++ after)).
    fold (context_core entries). now rewrite context_core_padded. }
  split; [exact Hsplit|].
  intros Hne w subject enables changes deferred. unfold format_message.
  rewrite Hsplit.
  assert (Ht : truthy (before ++ entries ++ after) = true).
  { destruct before; [|reflexivity]. now destruct entries. }
  rewrite Ht. now destruct entries.
Qed.

Lemma blank_context_entries_ignored_witness :
  _split_context_lines ([[]; lit "  "] ++ [lit "why"] ++ [[LF; LF]])
  = _split_context_lines [lit "why"].
Proof.
  apply (@blank_context_entries_ignored [[]; lit "  "] [lit "why"] [[LF; LF]]);
    reflexivity.
Defined.

(** *** What the world decides *)

Lemma change_entry_same_lines (w1 w2 : World) (item : str) (l1 l2 : list str) :
  change_entry w1 item = Ok l1 -> change_entry w2 item = Ok l2 -> l1 = l2.
Proof.
  intros H1 H2.
  apply change_entry_rendered in H1 as (b1 & a1 & c1 & [S1 N1] & _ & _ & _ & ->).
  apply change_entry_rendered in H2 as (b2 & a2 & c2 & [S2 N2] & _ & _ & _ & ->).
  rewrite S1 in S2. apply Ok_inj in S2. injection S2 as Hfirst <-.
  pose proof (split1_single_app 58%N b1 a1 N1) as P1.
  pose proof (split1_single_app 58%N b2 a2 N2) as P2.
  rewrite Hfirst, P2 in P1. injection P1 as <- <-. reflexivity.
Qed.

Lemma change_entries_same_lines (w1 w2 : World) (items l1 l2 : list str) :
  change_entries w1 items = Ok l1 -> change_entries w2 items = Ok l2 -> l1 = l2.
Proof.
  revert l1 l2; induction items as [|item rest IH]; intros l1 l2 H1 H2.
  - cbn in H1, H2. congruence.
  - cbn [change_entries] in H1, H2.
    apply bind_ok in H1 as (b1 & B1 & H1). apply bind_ok in H1 as (m1 & M1 & H1).
    apply bind_ok in H2 as (b2 & B2 & H2). apply bind_ok in H2 as (m2 & M2 & H2).
    apply Ok_inj in H1, H2. subst l1 l2.
    now rewrite (change_entry_same_lines _ _ _ B1 B2), (IH _ _ M1 M2).
Qed.

(** X9: the filesystem and git decide whether [format_message] returns a
    text, never which: in two worlds where it succeeds on the same inputs it
    returns the same text. *)
Theorem format_message_same_text (w1 w2 : World) (subject : str)
    (context enables changes deferred : list str) (text1 text2 : str) :
  format_message w1 subject context enables changes deferred = Ok text1 ->
  format_message w2 subject context enables changes deferred = Ok text2 ->
  text1 = text2.
Proof.
  intros H1 H2.
  apply format_message_ok in H1
    as (c1 & e1 & h1 & d1 & _ & C1 & _ & E1 & _ & Hh1 & _ & D1 & ->).
  apply format_message_ok in H2
    as (c2 & e2 & h2 & d2 & _ & C2 & _ & E2 & _ & Hh2 & _ & D2 & ->).
  rewrite C1 in C2. rewrite E1 in E2. rewrite D1 in D2.
  apply Ok_inj in C2, E2, D2. subst c2 e2 d2.
  now rewrite (change_entries_same_lines _ _ _ Hh1 Hh2).
Qed.

Lemma format_message_same_text_witness :
  exists text1 text2,
    format_message world_present (lit "Subject") [lit "Why"] [lit "Gain"]
      [lit "nonexistent/file.py: desc"] [lit "Later"] = Ok text1
    /\ format_message world_deleted (lit "Subject") [lit "Why"] [lit "Gain"]
         [lit "nonexistent/file.py: desc"] [lit "Later"] = Ok text2
    /\ text1 = text2.
Proof.
  assert (H1 : format_message world_present (lit "Subject") [lit "Why"] [lit "Gain"]
                 [lit "nonexistent/file.py: desc"] [lit "Later"] = Ok nonexistent_text)
    by (vm_compute; reflexivity).
  assert (H2 : format_message world_deleted (lit "Subject") [lit "Why"] [lit "Gain"]
                 [lit "nonexistent/file.py: desc"] [lit "Later"] = Ok nonexistent_text)
    by (vm_compute; reflexivity).
  exists nonexistent_text, nonexistent_text.
  split; [exact H1|split; [exact H2|]].
  eapply format_message_same_text; [exact H1|exact H2].
Defined.

(** X10: a change entry whose label candidate holds a space or a tab is not
    checked against the filesystem or git: [change_entry] gives the same in
    every world. *)
Theorem change_entry_spaced_label (w1 w2 : World) (item before after : str)
    (conts : list str) :
  change_parts item before after conts ->
  contains (lit " ") (_extract_path_candidate (strip before))
  || contains [9%N] (_extract_path_candidate (strip before)) = true ->
  change_entry w1 item = change_entry w2 item.
Proof.
  intros Hp Hs. rewrite !(change_entry_parts _ Hp).
  unfold check_label, _should_validate_path. now rewrite Hs.
Qed.

Lemma change_entry_spaced_label_witness :
  change_entry world_absent (lit "The parser: accept tabs")
  = change_entry world_present (lit "The parser: accept tabs").
Proof.
  apply (@change_entry_spaced_label world_absent world_present
           (lit "The parser: accept tabs") (lit "The parser") (lit " accept tabs") []).
  - split; [reflexivity|]. vm_compute. intuition discriminate.
  - reflexivity.
Defined.

(** *** The parenthetical of a label *)

Lemma find_paren (p t : str) :
  ~ In 40%N p -> find [32%N; 40%N] (p ++ 32%N :: 40%N :: t) = Some (length p).
Proof.
  induction p as [|c p IH]; intros Hn; [reflexivity|].
  cbn [app find length].
  change (startswith [32%N; 40%N] (c :: p ++ 32%N :: 40%N :: t))
    with ((32 =? c)%N && startswith [40%N] (p ++ 32%N :: 40%N :: t)).
  assert (Hnext : startswith [40%N] (p ++ 32%N :: 40%N :: t) = false).
  { destruct p as [|d p']; [reflexivity|]. cbn [app startswith].
    destruct (40 =? d)%N eqn:E; [|reflexivity].
    apply N.eqb_eq in E. subst d. exfalso. apply Hn. right. now left. }
  rewrite Hnext, andb_false_r.
  rewrite IH; [reflexivity|]. intros H. apply Hn. now right.
Qed.

(** X11: of a label that reads [p (note)], with no opening parenthesis in
    [p], the path candidate is [p] trimmed, and it is [p] trimmed that the
    path check of the label tests. *)
Theorem extract_path_candidate_parenthetical (p note : str) :
  ~ In 40%N p ->
  _extract_path_candidate (p ++ lit " (" ++ note ++ lit ")") = strip p
  /\ forall w : World,
       check_label w (p ++ lit " (" ++ note ++ lit ")")
       = if _should_validate_path w (strip p)
         then _validate_path w (root w) (strip p) else Ok tt.
Proof.
  intros Hn.
  assert (H : _extract_path_candidate (p ++ lit " (" ++ note ++ lit ")") = strip p).
  { unfold _extract_path_candidate, contains, split1, endswith.
    change (lit " (") with [32%N; 40%N]. change (lit ")") with [41%N].
    change (p ++ [32%N; 40%N] ++ note ++ [41%N])
      with (p ++ 32%N :: 40%N :: (note ++ [41%N])).
    rewrite find_paren by assumption.
    assert (Hend : startswith (rev [41%N])
                     (rev (p ++ 32%N :: 40%N :: note ++ [41%N])) = true).
    { rewrite app_comm_cons, app_comm_cons, app_assoc, rev_app_distr. reflexivity. }
    rewrite Hend. cbn [andb nth].
    now rewrite firstn_app, firstn_all, Nat.sub_diag, app_nil_r. }
  split; [exact H|]. intros w. unfold check_label. now rewrite H.
Qed.

Lemma extract_path_candidate_parenthetical_witness :
  _extract_path_candidate (lit "cache.py" ++ lit " (" ++ lit "new file" ++ lit ")")
  = strip (lit "cache.py").
Proof.
  apply (@extract_path_candidate_parenthetical (lit "cache.py") (lit "new file")).
  vm_compute. intuition discriminate.
Defined.

(** *** Formatting what was formatted *)

Lemma splitlines_single (x : str) :
  one_line x -> x <> [] -> splitlines x = [x].
Proof.
  induction 1 as [|c r Hc Hr IH]; intros Hne; [congruence|].
  cbn [splitlines]. rewrite Hc.
  destruct r as [|d r']; [reflexivity|]. now rewrite IH.
Qed.

Lemma splitlines_join_open (lines : list str) :
  lines <> [] -> Forall one_line lines -> last lines [] <> [] ->
  splitlines (join [LF] lines) = lines.
Proof.
  intros Hne H. induction H as [|x lines Hx Hl IH]; [congruence|].
  destruct lines as [|y lines].
  - cbn [join last]. intros Hlast. now apply splitlines_single.
  - intros Hlast.
    change (join [LF] (x :: y :: lines)) with (x ++ LF :: join [LF] (y :: lines)).
    rewrite splitlines_line by assumption. f_equal. apply IH; [discriminate|exact Hlast].
Qed.

Lemma lstrip_fixed (s : str) : strip s = s -> lstrip s = s.
Proof.
  intros H. rewrite <- H at 1. unfold strip, lstrip, rstrip.
  rewrite drop_while_drop_while_end, drop_while_idem. exact H.
Qed.

Lemma rstrip_fixed (s : str) : strip s = s -> rstrip s = s.
Proof.
  intros H. rewrite <- H at 1. unfold strip, rstrip.
  rewrite drop_while_end_idem. exact H.
Qed.

Lemma lstrip_app_fixed (a x : str) :
  lstrip a = a -> a <> [] -> lstrip (a ++ x) = a ++ x.
Proof.
  intros H Hne. unfold lstrip in *. rewrite drop_while_app, H.
  now destruct a.
Qed.

Lemma rstrip_app_fixed (x d : str) :
  rstrip d = d -> d <> [] -> rstrip (x ++ d) = x ++ d.
Proof.
  intros H Hne. unfold rstrip, drop_while_end in *.
  rewrite rev_app_distr, drop_while_app.
  apply (f_equal (@rev N)) in H. rewrite rev_involutive in H. rewrite H.
  destruct (rev d) eqn:E.
  - apply (f_equal (@rev N)) in E. rewrite rev_involutive in E. now subst.
  - cbn [truthy]. rewrite <- E, <- rev_app_distr. apply rev_involutive.
Qed.

Lemma strip_marked (first : str) :
  strip first = first -> first <> [] ->
  strip (lit "- " ++ first) = lit "- " ++ first.
Proof.
  intros H Hne. unfold strip.
  change (lstrip (lit "- " ++ first)) with (lit "- " ++ first).
  apply rstrip_app_fixed; [now apply rstrip_fixed|assumption].
Qed.

Lemma strip_indented (c : str) : strip (lit "  " ++ c) = strip c.
Proof. reflexivity. Qed.

Lemma strip_after_space (d : str) : strip (32%N :: d) = strip d.
Proof. reflexivity. Qed.

Lemma has_text_nonempty (s : str) : has_text s = true -> s <> [].
Proof. now destruct s. Qed.

Lemma no_blank_ends (lines : list str) :
  Forall (fun l => has_text l = true) lines ->
  drop_while_end blank (drop_while blank lines) = lines.
Proof.
  intros H.
  assert (Hd : drop_while blank lines = lines).
  { destruct H as [|l ls Hl _]; [reflexivity|].
    cbn [drop_while]. now rewrite blank_has_text, Hl. }
  rewrite Hd. destruct lines as [|l ls]; [reflexivity|].
  assert (Hne : l :: ls <> []) by discriminate.
  destruct (list_ends Hne) as (r & x & E). rewrite E in *.
  apply drop_while_end_keep. rewrite blank_has_text.
  apply Forall_app in H as [_ H]. inversion H as [|? ? Hx _]; subst.
  now rewrite Hx.
Qed.

(** The lines of a rendered bullet, joined by line feeds, split back into
    the lines they were rendered from. *)
Lemma split_item_lines_rendered (first : str) (conts : list str) (label : str) :
  Forall (fun line => strip line = line /\ has_text line = true /\ one_line line)
    (first :: conts) ->
  _split_item_lines
    (join [LF] ((lit "- " ++ first) :: map (fun c => lit "  " ++ c) conts)) label
  = Ok (first :: conts).
Proof.
  intros H. inversion H as [|? ? (Hs & Ht & Ho) Hconts]; subst.
  set (rendered := (lit "- " ++ first) :: map (fun c => lit "  " ++ c) conts).
  assert (Htext : Forall (fun l => has_text l = true) rendered).
  { constructor; [now rewrite has_text_app, Ht, orb_true_r|].
    apply Forall_map. eapply Forall_impl; [|exact Hconts].
    intros c (_ & Hc & _). now rewrite has_text_app, Hc, orb_true_r. }
  assert (Hone : Forall one_line rendered).
  { apply format_bullet_one_line. constructor; [exact Ho|].
    eapply Forall_impl; [|exact Hconts]. now intros c (_ & _ & Hc). }
  assert (Hlast : last rendered [] <> []).
  { assert (Hne : rendered <> []) by discriminate.
    destruct (list_ends Hne) as (r & x & E). rewrite E, last_last.
    rewrite E in Htext. apply Forall_app in Htext as [_ Hx].
    inversion Hx; subst. now apply has_text_nonempty. }
  rewrite split_item_lines_outcome. unfold item_core.
  rewrite splitlines_join_open by (assumption || discriminate).
  rewrite no_blank_ends by assumption. unfold rendered.
  assert (Hblank : existsb blank (map (fun c => lit "  " ++ c) conts) = false).
  { clear - Hconts.
    induction Hconts as [|c cs (_ & Hc & _) _ IH]; [reflexivity|].
    cbn [map existsb]. now rewrite blank_has_text, has_text_app, Hc, orb_true_r, IH. }
  rewrite Hblank. f_equal. f_equal.
  - rewrite strip_marked by (assumption || now apply has_text_nonempty).
    unfold unmarked. change (startswith (lit "- ") (lit "- " ++ first)) with true.
    exact Hs.
  - rewrite map_map. rewrite <- (map_id conts) at 2. apply map_ext_in.
    intros c Hc. rewrite strip_indented.
    rewrite Forall_forall in Hconts. now apply Hconts.
Qed.

(** X12: a bullet entry, once rendered, is an entry that
    [_split_item_lines] splits into the lines it was rendered from: to
    format the rendered bullet again gives the same bullet. *)
Theorem split_item_lines_idempotent (item label label' : str) (item_lines : list str) :
  _split_item_lines item label = Ok item_lines ->
  _split_item_lines (join [LF] (_format_bullet_lines item_lines default_indent)) label'
  = Ok item_lines.
Proof.
  intros H. pose proof (split_item_lines_fixed _ _ H) as [Hne Hall].
  destruct item_lines as [|first conts]; [congruence|].
  rewrite format_bullet_lines_cons. now apply split_item_lines_rendered.
Qed.

Lemma split_item_lines_idempotent_witness :
  _split_item_lines
    (join [LF] (_format_bullet_lines [lit "first"; lit "second"] default_indent))
    (lit "--deferred entry")
  = Ok [lit "first"; lit "second"].
Proof.
  apply (@split_item_lines_idempotent
           (lit "-   first  " ++ [LF] ++ lit "  second") (lit "--enable entry")).
  vm_compute. reflexivity.
Defined.

Lemma strip_fixed_has_text (s : str) : strip s = s -> s <> [] -> has_text s = true.
Proof.
  intros H Hne. rewrite <- truthy_strip, H. now destruct s.
Qed.

(** X13: the context lines [_split_context_lines] returns, joined by line
    feeds into one entry, are returned unchanged: to format the cleaned
    context again gives the same context. *)
Theorem split_context_lines_idempotent (entries cleaned : list str) :
  _split_context_lines entries = Ok cleaned ->
  _split_context_lines [join [LF] cleaned] = Ok cleaned.
Proof.
  intros H.
  destruct (split_context_lines_valid _ H) as (Hvalid & Hone & Hmap & _).
  apply validate_context_section_none in Hvalid
    as (Hne & Hfirst & Hlast & Hadj & Hcount).
  assert (Hfix : Forall (fun l => strip l = l) cleaned).
  { rewrite Hmap. apply Forall_map, Forall_forall. intros l _. apply strip_idem. }
  assert (Hraw : context_raw_lines [join [LF] cleaned] = cleaned).
  { unfold context_raw_lines. cbn [flat_map]. rewrite app_nil_r.
    rewrite splitlines_join_open by assumption.
    rewrite <- (map_id cleaned) at 2. apply map_ext_in. intros l Hl.
    rewrite Forall_forall in Hfix. now apply rstrip_fixed, Hfix. }
  assert (Hcore : context_core [join [LF] cleaned] = cleaned).
  { unfold context_core. rewrite Hraw.
    destruct cleaned as [|l ls]; [congruence|]. cbn [nth] in Hfirst.
    assert (Hl : has_text l = true).
    { inversion Hfix; subst. now apply strip_fixed_has_text. }
    cbn [drop_while]. rewrite blank_has_text, Hl. cbn [negb].
    assert (Hne' : l :: ls <> []) by discriminate.
    destruct (list_ends Hne') as (r & x & E). rewrite E in *.
    rewrite last_last in Hlast. apply drop_while_end_keep.
    rewrite blank_has_text. apply Forall_app in Hfix as [_ Hx].
    inversion Hx; subst. now rewrite strip_fixed_has_text. }
  rewrite split_context_lines_spaced; rewrite Hcore; try assumption.
  assert (Hle : (MAX_CONTEXT_LINES <? count_text cleaned) = false).
  { apply Nat.ltb_ge. exact Hcount. }
  rewrite Hle. f_equal.
  rewrite <- (map_id cleaned) at 2. apply map_ext_in. intros l Hl.
  rewrite Forall_forall in Hfix. now apply Hfix.
Qed.

Lemma split_context_lines_idempotent_witness :
  _split_context_lines [join [LF] [lit "why"; []; lit "and how"]]
  = Ok [lit "why"; []; lit "and how"].
Proof.
  apply (@split_context_lines_idempotent
           [[LF] ++ lit "  why  "; lit " " ++ [LF] ++ lit "and how "]).
  vm_compute. reflexivity.
Defined.

(** X14: a change entry that [change_entry] accepts is rendered into lines
    that, joined by line feeds, it accepts again and renders the same. *)
Theorem change_entry_idempotent (w : World) (item : str) (lines : list str) :
  change_entry w item = Ok lines ->
  change_entry w (join [LF] lines) = Ok lines.
Proof.
  intros H.
  apply change_entry_rendered in H
    as (before & after & conts & [Hsplit Hn] & Hb & Ha & Hcheck & ->).
  pose proof (split_item_lines_fixed _ _ Hsplit) as [_ Hall].
  inversion Hall as [|? ? (_ & _ & Hone) Hconts]; subst.
  apply Forall_app in Hone as [Hob Hoa]. inversion Hoa as [|? ? _ Hoa']; subst.
  set (label := strip before). set (description := strip after).
  assert (Hlt : has_text label = true) by (unfold label; now rewrite has_text_strip).
  assert (Hdt : has_text description = true)
    by (unfold description; now rewrite has_text_strip).
  assert (Hnl : ~ In 58%N label).
  { intros Hin. apply Hn.
    assert (Hall' : Forall (fun c => c <> 58%N) label).
    { apply Forall_strip, Forall_forall. intros c Hc ->. auto. }
    rewrite Forall_forall in Hall'. now apply Hall' in Hin. }
  assert (Hfirst : strip (label ++ lit ": " ++ description)
                   = label ++ lit ": " ++ description).
  { unfold strip at 1.
    rewrite lstrip_app_fixed;
      [|apply lstrip_fixed, strip_idem|now apply has_text_nonempty].
    rewrite app_assoc. rewrite rstrip_app_fixed;
      [now rewrite <- app_assoc|apply rstrip_fixed, strip_idem
      |now apply has_text_nonempty]. }
  assert (Hparts : change_parts
                     (join [LF] (rendered_change label description conts))
                     label (32%N :: description) conts).
  { split; [|exact Hnl]. unfold rendered_change.
    change (label ++ 58%N :: 32%N :: description)
      with (label ++ lit ": " ++ description).
    apply split_item_lines_rendered. constructor; [|exact Hconts].
    repeat split.
    - exact Hfirst.
    - now rewrite has_text_app, Hlt.
    - apply Forall_app. split; [now apply Forall_strip|].
      apply Forall_app. split; [repeat constructor|now apply Forall_strip]. }
  rewrite (change_entry_parts w Hparts).
  rewrite strip_after_space. unfold label, description. rewrite !strip_idem.
  rewrite !truthy_strip, Hb, Ha, Hcheck. reflexivity.
Qed.

Lemma change_entry_idempotent_witness :
  change_entry world_present (join [LF] [lit "- a.py: fix  bug"; lit "  and more"])
  = Ok [lit "- a.py: fix  bug"; lit "  and more"].
Proof.
  apply (@change_entry_idempotent world_present
           (lit "a.py :  fix  bug" ++ [LF] ++ lit "and more")).
  vm_compute. reflexivity.
Defined.

(** *** Line endings *)

Lemma splitlines_crlf (s : str) :
  ~ In CR s -> splitlines (crlf s) = splitlines s.
Proof.
  unfold crlf. induction s as [|c r IH]; intros Hn; [reflexivity|].
  assert (Hr : ~ In CR r) by (intros H; apply Hn; now right).
  assert (Hc : (c =? CR)%N = false).
  { apply N.eqb_neq. intros ->. apply Hn. now left. }
  specialize (IH Hr). cbn [flat_map].
  destruct (c =? LF)%N eqn:El.
  - apply N.eqb_eq in El. subst c.
    change ([CR; LF] ++ ?x) with (CR :: LF :: x).
    cbn [app]. cbn [splitlines]. change (is_linebreak CR) with true.
    change (is_linebreak LF) with true. cbv iota.
    change ((CR =? CR)%N && (LF =? LF)%N) with true. cbv iota. rewrite IH.
    destruct r as [|c' r']; [reflexivity|].
    change ((LF =? CR)%N) with false. reflexivity.
  - cbn [app]. cbn [splitlines]. destruct (is_linebreak c) eqn:Eb.
    + rewrite Hc. cbn [andb].
      destruct r as [|c' r']; [reflexivity|].
      rewrite <- IH. cbn [flat_map].
      destruct (c' =? LF)%N; reflexivity.
    + now rewrite IH.
Qed.

(** X15: a text without carriage returns gets the same verdict from
    [lint_message], and an entry without carriage returns is split into the
    same lines by [_split_item_lines], when every line feed is turned into
    carriage return, line feed. *)
Theorem crlf_line_endings (s : str) :
  ~ In CR s ->
  Lint.lint_message (crlf s) = Lint.lint_message s
  /\ (forall label, _split_item_lines (crlf s) label = _split_item_lines s label)
  /\ _split_context_lines [crlf s] = _split_context_lines [s].
Proof.
  intros Hn. pose proof (splitlines_crlf s Hn) as H. repeat split.
  - unfold Lint.lint_message. now rewrite H.
  - intros label. unfold _split_item_lines. now rewrite H.
  - unfold _split_context_lines, context_raw_lines. cbn [flat_map]. now rewrite H.
Qed.

Lemma crlf_line_endings_witness :
  Lint.lint_message (crlf caching_text) = Lint.lint_message caching_text.
Proof.
  apply (@crlf_line_endings caching_text).
  vm_compute. intuition discriminate.
Defined.

(** *** Whitespace around the lines of an entry *)

Lemma map_drop_while (A B : Type) (f : A -> B) (p : B -> bool) (l : list A) :
  map f (drop_while (fun x => p (f x)) l) = drop_while p (map f l).
Proof.
  induction l as [|x l IH]; [reflexivity|]. cbn [drop_while map].
  destruct (p (f x)); [exact IH|reflexivity].
Qed.

Lemma map_drop_while_end (A B : Type) (f : A -> B) (p : B -> bool) (l : list A) :
  map f (drop_while_end (fun x => p (f x)) l) = drop_while_end p (map f l).
Proof.
  unfold drop_while_end. now rewrite map_rev, map_drop_while, map_rev.
Qed.

Lemma stripped_item_core (item : str) :
  map strip (item_core item)
  = drop_while_end (fun t => negb (truthy t))
      (drop_while (fun t => negb (truthy t)) (map strip (splitlines item))).
Proof.
  unfold item_core.
  exact (eq_trans
           (map_drop_while_end strip (fun t => negb (truthy t))
              (drop_while blank (splitlines item)))
           (f_equal (drop_while_end (fun t => negb (truthy t)))
              (map_drop_while strip (fun t => negb (truthy t)) (splitlines item)))).
Qed.

Lemma split_item_lines_stripped (item label : str) :
  _split_item_lines item label
  = match map strip (item_core item) with
    | [] => Raise (EmptyBulletEntry label)
    | first :: rest =>
        if existsb (fun t => negb (truthy t)) rest
        then Raise (BlankLineInBullet label)
        else Ok (unmarked first :: rest)
    end.
Proof.
  rewrite split_item_lines_outcome.
  destruct (item_core item) as [|x rest]; [reflexivity|]. cbn [map].
  assert (H : existsb (fun t => negb (truthy t)) (map strip rest)
              = existsb blank rest).
  { induction rest as [|l ls IH]; [reflexivity|]. cbn [map existsb].
    now rewrite IH. }
  now rewrite H.
Qed.

(** X16: [_split_item_lines] looks at the lines of an entry trimmed: two
    entries whose lines differ in leading and trailing whitespace only are
    split alike. *)
Theorem split_item_lines_whitespace (item item' label : str) :
  map strip (splitlines item) = map strip (splitlines item') ->
  _split_item_lines item label = _split_item_lines item' label.
Proof.
  intros H. rewrite !split_item_lines_stripped, !stripped_item_core.
  now rewrite H.
Qed.

Lemma split_item_lines_whitespace_witness :
  _split_item_lines (lit "   - first " ++ [LF] ++ 9%N :: lit "second") (lit "--enable entry")
  = _split_item_lines (lit "- first" ++ [LF] ++ lit "second") (lit "--enable entry").
Proof.
  apply split_item_lines_whitespace. vm_compute. reflexivity.
Defined.
